(** * Scheduled task runner (main.py): model and verified properties

    The program is a single-process HTTP service.  Its whole state is two
    module-level globals, [start_time] and [task_results]; its handlers read
    the wall clock ([datetime.now()]), await a pluggable Work Unit
    ([simulate_work]), append to [task_results], write log lines, sleep,
    signal the process and exit.

    The handlers are embedded as computations of a small state-and-exception
    monad over a [World]:
    - the globals are fields of the world;
    - [datetime.now()] reads the next value of a clock oracle (the wall clock
      is an input of the program, nothing in the code makes it monotone);
    - log lines, [asyncio.sleep] and [os.kill] are appended to an event trace;
    - [raise] and [sys.exit] are the two abnormal results; [except Exception]
      catches the first and lets the second through.

    Datetimes are integers (microseconds), a timedelta is their difference and
    [total_seconds()] is the rational number of seconds; the rounding of that
    rational to a binary float is not modelled. *)

From Stdlib Require Import String Ascii List ZArith QArith Arith Lia.
From Stdlib Require Import Sorted DecimalString DecimalNat.
Import ListNotations.

Local Close Scope Q_scope.
Local Open Scope string_scope.
Local Open Scope list_scope.

(** ** Data model *)

(** [datetime]: microseconds on the wall clock; [timedelta]: a difference. *)
Definition datetime := Z.
Definition timedelta := Z.

(** [timedelta.total_seconds()]. *)
Definition total_seconds (d : timedelta) : Q := (d # 1000000)%Q.

(** [class TaskResult(BaseModel)]. *)
Record TaskResult := mkTaskResult {
  task_id : string;
  status : string;
  message : string;
  timestamp : datetime;
  duration_seconds : Q
}.

(** [class HealthResponse(BaseModel)]. *)
Module HealthResponse.
Record t := mk {
  status : string;
  timestamp : datetime;
  uptime_seconds : Q
}.
End HealthResponse.

(** The dict returned by [root()]. *)
Module RootResponse.
Record t := mk {
  message : string;
  status : string;
  start_time : datetime;
  uptime_seconds : Q
}.
End RootResponse.

(** Exceptions that [except Exception] catches.  [Error text] is any
    exception [e] with [str(e) = text]; [HTTPException] is FastAPI's. *)
Inductive exn :=
| Error (text : string)
| HTTPException (status_code : nat) (detail : string).

(** [str(n)] for a non-negative integer: decimal digits, no leading zero. *)
Definition str_nat (n : nat) : string := NilEmpty.string_of_uint (Nat.to_uint n).

(** [str(e)].  For [HTTPException] this is Starlette's [__str__],
    ["<status_code>: <detail>"]. *)
Definition str (e : exn) : string :=
  match e with
  | Error text => text
  | HTTPException c d => str_nat c ++ ": " ++ d
  end.

(** ** Observable effects *)

Inductive level := INFO | ERROR.
Inductive signal := SIGTERM.

(** The pieces of an f-string: literal text and already rendered strings,
    a float under [:.2f], a datetime. *)
Inductive piece :=
| Str (s : string)
| Fixed2 (x : Q)
| Stamp (t : datetime).

Inductive event :=
| Log (lvl : level) (msg : list piece)     (* logger.info / logger.error *)
| Sleep (seconds : nat)                    (* await asyncio.sleep(seconds) *)
| Kill (sig : signal).                     (* os.kill(os.getpid(), sig) *)

(** ** The world: globals, clock oracle, trace *)

Record World := mkWorld {
  start_time : datetime;               (* global, line 49 *)
  task_results : list TaskResult;      (* global, line 50 *)
  clock : nat -> datetime;             (* the k-th reading of datetime.now() *)
  ticks : nat;                         (* readings taken so far *)
  trace : list event                   (* oldest event first *)
}.

(** Module initialisation, lines 49-50. *)
Definition boot (clk : nat -> datetime) : World :=
  {| start_time := clk 0%nat; task_results := []; clock := clk;
     ticks := 1; trace := [] |}.

(** ** The monad *)

Inductive result (A : Type) :=
| Ok (a : A)               (* normal return *)
| Raise (e : exn)          (* an Exception propagates *)
| Exit (code : Z).         (* SystemExit propagates: not an Exception *)
Arguments Ok {A} a.
Arguments Raise {A} e.
Arguments Exit {A} code.

Definition M (A : Type) : Type := World -> result A * World.

Definition ret {A} (a : A) : M A := fun w => (Ok a, w).

Definition bind {A B} (m : M A) (k : A -> M B) : M B :=
  fun w =>
    match m w with
    | (Ok a, w') => k a w'
    | (Raise e, w') => (Raise e, w')
    | (Exit c, w') => (Exit c, w')
    end.

Notation "x <- m ;; k" := (bind m (fun x => k))
  (at level 61, m at next level, right associativity).
Notation "m ;; k" := (bind m (fun _ => k))
  (at level 61, right associativity).

Definition raise {A} (e : exn) : M A := fun w => (Raise e, w).

(** [sys.exit(code)]. *)
Definition sys_exit {A} (code : Z) : M A := fun w => (Exit code, w).

(** [try: body  except Exception as e: handler(e)]. *)
Definition try_except {A} (body : M A) (handler : exn -> M A) : M A :=
  fun w =>
    match body w with
    | (Raise e, w') => handler e w'
    | other => other
    end.

Definition get_start_time : M datetime := fun w => (Ok (start_time w), w).
Definition get_task_results : M (list TaskResult) :=
  fun w => (Ok (task_results w), w).

(** [task_results.append(r)]. *)
Definition push (r : TaskResult) (w : World) : World :=
  {| start_time := start_time w; task_results := task_results w ++ [r];
     clock := clock w; ticks := ticks w; trace := trace w |}.
Definition append (r : TaskResult) : M unit := fun w => (Ok tt, push r w).

(** [datetime.now()]. *)
Definition tick (w : World) : World :=
  {| start_time := start_time w; task_results := task_results w;
     clock := clock w; ticks := S (ticks w); trace := trace w |}.
Definition now : M datetime := fun w => (Ok (clock w (ticks w)), tick w).

Definition emit (evs : list event) (w : World) : World :=
  {| start_time := start_time w; task_results := task_results w;
     clock := clock w; ticks := ticks w; trace := trace w ++ evs |}.
Definition logger_info (msg : list piece) : M unit :=
  fun w => (Ok tt, emit [Log INFO msg] w).
Definition logger_error (msg : list piece) : M unit :=
  fun w => (Ok tt, emit [Log ERROR msg] w).
Definition asyncio_sleep (seconds : nat) : M unit :=
  fun w => (Ok tt, emit [Sleep seconds] w).
Definition os_kill_self (sig : signal) : M unit :=
  fun w => (Ok tt, emit [Kill sig] w).

(** ** The program *)

(** [startup_event], lines 53-57. *)
Definition startup_event : M unit :=
  logger_info [Str "FASTAPISCRIPT application starting up"] ;;
  st <- get_start_time ;;
  logger_info [Str "Application started at: "; Stamp st].

(** [shutdown_event], lines 60-65. *)
Definition shutdown_event : M unit :=
  logger_info [Str "FASTAPISCRIPT application shutting down"] ;;
  t <- now ;;
  st <- get_start_time ;;
  let uptime := total_seconds (t - st)%Z in
  logger_info [Str "Total uptime: "; Fixed2 uptime; Str " seconds"].

(** [root], lines 68-76. *)
Definition root : M RootResponse.t :=
  st <- get_start_time ;;
  t <- now ;;
  st' <- get_start_time ;;
  ret (RootResponse.mk "FASTAPISCRIPT Scheduled Runner" "running" st
         (total_seconds (t - st')%Z)).

(** [health_check], lines 79-85. *)
Definition health_check : M HealthResponse.t :=
  t <- now ;;
  st <- get_start_time ;;
  let uptime := total_seconds (t - st)%Z in
  t' <- now ;;
  ret (HealthResponse.mk "healthy" t' uptime).

(** [simulate_work], lines 150-171: the sample Work Unit. *)
Definition tasks : list (string * nat) :=
  [ ("Database cleanup", 2%nat);
    ("Data processing", 5%nat);
    ("Report generation", 3%nat);
    ("Email notifications", 1%nat);
    ("File maintenance", 2%nat) ].

Fixpoint for_each {A} (l : list A) (body : A -> M unit) : M unit :=
  match l with
  | [] => ret tt
  | x :: l' => body x ;; for_each l' body
  end.

Definition simulate_work : M unit :=
  logger_info [Str "Performing automation work..."] ;;
  for_each tasks (fun '(task_name, duration) =>
    logger_info [Str "Executing: "; Str task_name] ;;
    asyncio_sleep duration ;;
    logger_info [Str "Completed: "; Str task_name]) ;;
  logger_info [Str "All automation work completed"].

(** [run_main_task], lines 88-131.  The coroutine suspends at
    [await simulate_work()]; what it holds across the suspension are its two
    locals.  The three straight-line pieces around the await are given names
    so that schedules in which two runs overlap can be written down too. *)
Record Pending := mkPending {
  pending_id : string;          (* task_id *)
  pending_start : datetime      (* task_start *)
}.

(** f"task_{n}" *)
Definition task_name_of (n : nat) : string := "task_" ++ str_nat n.

(** Lines 91-94. *)
Definition run_begin : M Pending :=
  rs <- get_task_results ;;
  let task_id := task_name_of (length rs + 1) in
  task_start <- now ;;
  logger_info [Str "Starting task: "; Str task_id] ;;
  ret (mkPending task_id task_start).

(** Lines 102-116. *)
Definition run_completed (p : Pending) : M TaskResult :=
  t <- now ;;
  let duration := total_seconds (t - pending_start p)%Z in
  t' <- now ;;
  let result :=
    mkTaskResult (pending_id p) "completed" "Task completed successfully"
                 t' duration in
  append result ;;
  logger_info [Str "Task "; Str (pending_id p);
               Str " completed successfully in "; Fixed2 duration;
               Str " seconds"] ;;
  ret result.

(** Lines 118-131. *)
Definition run_failed (p : Pending) (e : exn) : M TaskResult :=
  t <- now ;;
  let duration := total_seconds (t - pending_start p)%Z in
  t' <- now ;;
  let error_result :=
    mkTaskResult (pending_id p) "failed" ("Task failed: " ++ str e)
                 t' duration in
  append error_result ;;
  logger_error [Str "Task "; Str (pending_id p); Str " failed: "; Str (str e)] ;;
  raise (HTTPException 500 ("Task failed: " ++ str e)).

Section WorkUnit.

(** The Work Unit awaited at line 100.  In the source it is
    [simulate_work]; the handlers are written against any awaitable, which
    may complete, raise or exit, and during which other coroutines may
    run. *)
Variable work : M unit.

Definition run_main_task : M TaskResult :=
  p <- run_begin ;;
  try_except (work ;; run_completed p) (fun e => run_failed p e).

(** [auto_run_task], lines 175-200. *)
Definition auto_run_task : M unit :=
  asyncio_sleep 2 ;;
  try_except
    (logger_info [Str "Auto-executing main task"] ;;
     run_main_task ;;
     logger_info [Str "Main task completed, scheduling shutdown..."] ;;
     asyncio_sleep 5 ;;
     os_kill_self SIGTERM)
    (fun e =>
       logger_error [Str "Auto-task execution failed: "; Str (str e)] ;;
       sys_exit 1).

End WorkUnit.

(** [get_task_history], lines 134-137. *)
Definition get_task_history : M (list TaskResult) := get_task_results.

(** [get_task_result], lines 140-147: the [for] loop over the store. *)
Fixpoint scan (rs : list TaskResult) (task_id' : string) : option TaskResult :=
  match rs with
  | [] => None
  | result :: rs' =>
      if String.eqb (task_id result) task_id' then Some result
      else scan rs' task_id'
  end.

Definition get_task_result (task_id' : string) : M TaskResult :=
  rs <- get_task_results ;;
  match scan rs task_id' with
  | Some result => ret result
  | None => raise (HTTPException 404 "Task not found")
  end.

(** ** Requests and lifecycle hooks *)

Inductive request :=
| GET_root
| GET_health
| POST_run_task
| GET_tasks
| GET_task (task_id : string).

Inductive operation :=
| on_startup            (* startup_event *)
| on_startup_auto_run   (* auto_run_task *)
| on_shutdown           (* shutdown_event *)
| http (req : request).

Inductive response :=
| RootBody (b : RootResponse.t)
| HealthBody (b : HealthResponse.t)
| TaskBody (b : TaskResult)
| TasksBody (b : list TaskResult)
| NoBody.

Section Server.

Variable work : M unit.

Definition handle (req : request) : M response :=
  match req with
  | GET_root => b <- root ;; ret (RootBody b)
  | GET_health => b <- health_check ;; ret (HealthBody b)
  | POST_run_task => b <- run_main_task work ;; ret (TaskBody b)
  | GET_tasks => b <- get_task_history ;; ret (TasksBody b)
  | GET_task i => b <- get_task_result i ;; ret (TaskBody b)
  end.

Definition exec (o : operation) : M response :=
  match o with
  | on_startup => startup_event ;; ret NoBody
  | on_startup_auto_run => auto_run_task work ;; ret NoBody
  | on_shutdown => shutdown_event ;; ret NoBody
  | http req => handle req
  end.

(** Operations carried out one after another, each to its end before the
    next starts.  A raised [HTTPException] is an error response and the
    process goes on; an exit ends the process, and what follows is never
    run.  (A process that has signalled itself is taken to go on serving:
    the sequences of a real process are among those of the model.) *)
Fixpoint serve (ops : list operation) (w : World) : World :=
  match ops with
  | [] => w
  | o :: ops' =>
      match exec o w with
      | (Exit _, w') => w'
      | (_, w') => serve ops' w'
      end
  end.

(** The operations of [ops] that were carried out: all of them, or those up
    to the one that exits. *)
Fixpoint executed (ops : list operation) (w : World) : list operation :=
  match ops with
  | [] => []
  | o :: ops' =>
      o :: match exec o w with
           | (Exit _, _) => []
           | (_, w') => executed ops' w'
           end
  end.

End Server.

(** ** Vocabulary of the statements *)

(** The sequence number in a task id: the inverse of [task_name_of]. *)
Definition task_number (s : string) : option nat :=
  match s with
  | String "t" (String "a" (String "s" (String "k" (String "_" digits)))) =>
      option_map Nat.of_uint (NilEmpty.uint_of_string digits)
  | _ => None
  end.

Definition ids_strictly_increasing (rs : list TaskResult) : Prop :=
  forall i j ri rj,
    (i < j)%nat -> nth_error rs i = Some ri -> nth_error rs j = Some rj ->
    exists a b, task_number (task_id ri) = Some a /\
                task_number (task_id rj) = Some b /\ (a < b)%nat.

Definition is_prefix {A} (l l' : list A) : Prop := exists tl, l' = l ++ tl.

(** [text] occurs inside [s]. *)
Definition embeds (text s : string) : Prop :=
  exists pre post, s = (pre ++ text ++ post)%string.

(** The operations that invoke the task runner. *)
Definition is_run (o : operation) : bool :=
  match o with
  | on_startup_auto_run | http POST_run_task => true
  | _ => false
  end.
Definition runs (ops : list operation) : nat := length (filter is_run ops).

(** Nothing else touches the store while the Work Unit is awaited (no
    overlapping run), and the Work Unit completes or fails. *)
Definition leaves_store (work : M unit) : Prop :=
  forall w, task_results (snd (work w)) = task_results w.
(** Weaker: while the Work Unit is awaited the store may grow at its end
    (other runs may complete), and nothing more. *)
Definition extends_store (work : M unit) : Prop :=
  forall w, is_prefix (task_results w) (task_results (snd (work w))).
Definition leaves_start_time (work : M unit) : Prop :=
  forall w, start_time (snd (work w)) = start_time w.
Definition completes_or_fails (work : M unit) : Prop :=
  forall w, match fst (work w) with Exit _ => False | _ => True end.

(** The locals and the world of a run when it reaches the await. *)
Definition pending_of (w : World) : Pending :=
  mkPending (task_name_of (length (task_results w) + 1)) (clock w (ticks w)).
Definition begun (w : World) : World :=
  emit [Log INFO [Str "Starting task: ";
                  Str (task_name_of (length (task_results w) + 1))]] (tick w).

(** The record a run builds when its Work Unit ends in world [w1]. *)
Definition record_of (p : Pending) (st msg : string) (w1 : World) : TaskResult :=
  mkTaskResult (pending_id p) st msg (clock w1 (S (ticks w1)))
               (total_seconds (clock w1 (ticks w1) - pending_start p)%Z).

(** The world after the two clock readings and the append that end a run. *)
Definition recorded (r : TaskResult) (w1 : World) : World :=
  push r (tick (tick w1)).

(** The run of [work] started in world [w] records [r]: the store after the
    run is the store as it was when the Work Unit ended, plus [r]. *)
Definition records (work : M unit) (w : World) (r : TaskResult) : Prop :=
  task_results (snd (run_main_task work w)) =
  task_results (snd (work (begun w))) ++ [r].

(** The world in which the auto-run invokes the task runner: after the
    warm-up delay and the log line that announces the run. *)
Definition warmed_up (w : World) : World :=
  emit [Sleep 2; Log INFO [Str "Auto-executing main task"]] w.

(** *** Sample inputs *)

(** A Work Unit that fails at once with [Error text]. *)
Definition failing (text : string) : M unit := raise (Error text).

(** A Work Unit that fails exactly when the store holds [k] results. *)
Definition failing_at (k : nat) (text : string) : M unit :=
  fun w => if Nat.eqb (length (task_results w)) k
           then failing text w else simulate_work w.

(** A clock that advances one second per reading. *)
Definition steady_clock : nat -> datetime := fun k => (Z.of_nat k * 1000000)%Z.

(** A wall clock that is set back one hour after its second reading. *)
Definition stepped_back_clock : nat -> datetime :=
  fun k => if Nat.leb k 1 then (Z.of_nat k * 1000000)%Z
           else (Z.of_nat k * 1000000 - 3600000000)%Z.

(** Two runs that overlap: the second starts while the first is awaiting its
    Work Unit, then each finishes (lines 91-94 twice, then 102-116 twice). *)
Definition overlapping_runs : M (TaskResult * TaskResult) :=
  p1 <- run_begin ;;
  p2 <- run_begin ;;
  r1 <- run_completed p1 ;;
  r2 <- run_completed p2 ;;
  ret (r1, r2).

Definition overlapped_world : World := snd (overlapping_runs (boot steady_clock)).

(** A process lifetime: both startup handlers, then five requests, three of
    them runs. *)
Definition sample_operations : list operation :=
  [on_startup; on_startup_auto_run;
   http POST_run_task; http GET_health; http POST_run_task;
   http (GET_task "task_1"); http POST_run_task; on_shutdown].

(** A process that has served nine runs of the sample Work Unit. *)
Definition nine_runs_world : World :=
  serve simulate_work (repeat (http POST_run_task) 9) (boot steady_clock).

(** *** The claims that do not hold as they are worded *)

(** C4 as it is worded: for every appended result, the lookup of its id
    returns that result; for every id that was never issued, the lookup
    raises 404; the world is unchanged. *)
Definition lookup_returns_each_appended_result : Prop :=
  (forall w r, In r (task_results w) ->
               get_task_result (task_id r) w = (Ok r, w)) /\
  (forall w i, (forall r, In r (task_results w) -> task_id r <> i) ->
               get_task_result i w =
                 (Raise (HTTPException 404 "Task not found"), w)).

(** C5 as it is worded: the detail of the 500 response is "Task failed: "
    followed by the message field of the failed record, and contains the
    error's text. *)
Definition error_detail_wraps_recorded_message : Prop :=
  forall work w e w1,
    work (begun w) = (Raise e, w1) ->
    exists r d,
      records work w r /\
      fst (run_main_task work w) = Raise (HTTPException 500 d) /\
      d = ("Task failed: " ++ message r)%string /\
      embeds (str e) d.

(** C6 as it is worded: the duration of every recorded result is
    non-negative and is the span between the start of the run and the
    moment the Work Unit completed or failed. *)
Definition durations_never_negative : Prop :=
  forall work w r,
    records work w r ->
    let w1 := snd (work (begun w)) in
    (0 <= duration_seconds r)%Q /\
    duration_seconds r =
      total_seconds (clock w1 (ticks w1) - clock w (ticks w))%Z.

(** A decimal numeral read digit by digit, from the characters alone and
    independently of the function that prints ids. *)
Definition digit_value (c : ascii) : option nat :=
  match c with
  | "0"%char => Some 0%nat | "1"%char => Some 1%nat | "2"%char => Some 2%nat
  | "3"%char => Some 3%nat | "4"%char => Some 4%nat | "5"%char => Some 5%nat
  | "6"%char => Some 6%nat | "7"%char => Some 7%nat | "8"%char => Some 8%nat
  | "9"%char => Some 9%nat
  | _ => None
  end.

Fixpoint decimal_value_from (acc : nat) (s : string) : option nat :=
  match s with
  | EmptyString => Some acc
  | String c s' =>
      match digit_value c with
      | Some d => decimal_value_from (10 * acc + d) s'
      | None => None
      end
  end.

Definition decimal_value (s : string) : option nat :=
  match s with
  | EmptyString => None
  | _ => decimal_value_from 0 s
  end.

Definition no_leading_zero (s : string) : Prop :=
  forall rest, s <> String "0" rest.

(** *** Vocabulary of the further properties *)

(** The events of one step of the loop of [simulate_work], lines 166-169. *)
Definition step_events (step : string * nat) : list event :=
  let '(task_name, duration) := step in
  [Log INFO [Str "Executing: "; Str task_name];
   Sleep duration;
   Log INFO [Str "Completed: "; Str task_name]].

(** The delays of a trace, in order, and their sum. *)
Definition sleeps (evs : list event) : list nat :=
  flat_map (fun ev => match ev with Sleep s => [s] | _ => [] end) evs.
Definition slept (evs : list event) : nat := list_sum (sleeps evs).

Definition signals (evs : list event) : list signal :=
  flat_map (fun ev => match ev with Kill s => [s] | _ => [] end) evs.

(** The Work Unit only adds events to the trace, none of them a signal. *)
Definition sends_no_signal (work : M unit) : Prop :=
  forall w, exists evs,
    trace (snd (work w)) = trace w ++ evs /\ signals evs = [].

(** The end of a run whose Work Unit completed ([None]) or raised
    ([Some e]): lines 102-116 or lines 118-131. *)
Definition run_end (p : Pending) (outcome : option exn) : M TaskResult :=
  match outcome with
  | None => run_completed p
  | Some e => run_failed p e
  end.

(** Two runs started one after the other before either ends; then both
    end, the first started first or ([swap]) the second started first. *)
Definition two_overlapping (o1 o2 : option exn) (swap : bool) : M unit :=
  p1 <- run_begin ;;
  p2 <- run_begin ;;
  let end1 := try_except (run_end p1 o1 ;; ret tt) (fun _ => ret tt) in
  let end2 := try_except (run_end p2 o2 ;; ret tt) (fun _ => ret tt) in
  if swap then end2 ;; end1 else end1 ;; end2.

(** The two shapes of record the runner builds. *)
Definition well_formed (r : TaskResult) : Prop :=
  (status r = "completed" /\ message r = "Task completed successfully") \/
  (status r = "failed" /\
   exists text, message r = ("Task failed: " ++ text)%string).

(** The wall clock never goes back. *)
Definition non_decreasing (clk : nat -> datetime) : Prop :=
  forall a b, (a <= b)%nat -> (clk a <= clk b)%Z.

(** The Work Unit leaves the clock oracle alone and does not rewind it. *)
Definition keeps_clock (work : M unit) : Prop :=
  forall w, clock (snd (work w)) = clock w /\
            (ticks w <= ticks (snd (work w)))%nat.

Definition chronological (rs : list TaskResult) : Prop :=
  StronglySorted (fun a b => (timestamp a <= timestamp b)%Z) rs.

(** The world runs on the clock [clk]: [start_time] was its first reading,
    and every stored result has a non-negative duration and a timestamp
    that was read from it, the timestamps in append order. *)
Definition timed_by (clk : nat -> datetime) (w : World) : Prop :=
  clock w = clk /\ start_time w = clk 0%nat /\
  (forall r, In r (task_results w) ->
     (0 <= duration_seconds r)%Q /\
     exists k, (k < ticks w)%nat /\ timestamp r = clk k) /\
  chronological (task_results w).

(** * Proofs *)

(** ** Basic facts *)

Lemma snd_bind_ret {A B} (m : M A) (f : A -> B) w :
  snd ((x <- m ;; ret (f x)) w) = snd (m w).
Proof. unfold bind, ret. now destruct (m w) as [[a|e|c] w']. Qed.

Lemma exit_bind_ret {A B} (m : M A) (f : A -> B) w c :
  fst ((x <- m ;; ret (f x)) w) = Exit c -> fst (m w) = Exit c.
Proof.
  unfold bind, ret. destruct (m w) as [[a|e|c'] w']; simpl; congruence.
Qed.

Lemma emit_emit a b w : emit b (emit a w) = emit (a ++ b) w.
Proof. unfold emit; simpl. f_equal. symmetry. apply app_assoc. Qed.

Lemma append_empty_r (s : string) : (s ++ "")%string = s.
Proof. induction s as [|c s IH]; simpl; [reflexivity | now rewrite IH]. Qed.

Lemma embeds_suffix pre text : embeds text (pre ++ text)%string.
Proof. exists pre, "". now rewrite append_empty_r. Qed.

Lemma app_one_neq_self {A} (l : list A) (x : A) : l ++ [x] <> l.
Proof.
  intros H. apply (f_equal (@length A)) in H.
  rewrite length_app in H. simpl in H. lia.
Qed.

Lemma is_prefix_refl {A} (l : list A) : is_prefix l l.
Proof. exists []. now rewrite app_nil_r. Qed.

Lemma is_prefix_trans {A} (l1 l2 l3 : list A) :
  is_prefix l1 l2 -> is_prefix l2 l3 -> is_prefix l1 l3.
Proof.
  intros [a ->] [b ->]. exists (a ++ b). now rewrite app_assoc.
Qed.

Lemma is_prefix_app {A} (l tl : list A) : is_prefix l (l ++ tl).
Proof. now exists tl. Qed.

Create HintDb store discriminated.
#[local] Hint Resolve is_prefix_refl is_prefix_app : store.

(** ** The task runner, by the way its Work Unit ends *)

Lemma run_begin_eq w : run_begin w = (Ok (pending_of w), begun w).
Proof. reflexivity. Qed.

Lemma run_completed_eq p w1 :
  let r := record_of p "completed" "Task completed successfully" w1 in
  run_completed p w1 =
  (Ok r, emit [Log INFO [Str "Task "; Str (pending_id p);
                         Str " completed successfully in ";
                         Fixed2 (duration_seconds r); Str " seconds"]]
           (recorded r w1)).
Proof. reflexivity. Qed.

Lemma run_failed_eq p e w1 :
  let r := record_of p "failed" ("Task failed: " ++ str e) w1 in
  run_failed p e w1 =
  (Raise (HTTPException 500 ("Task failed: " ++ str e)),
   emit [Log ERROR [Str "Task "; Str (pending_id p); Str " failed: ";
                    Str (str e)]]
        (recorded r w1)).
Proof. reflexivity. Qed.

Lemma run_main_task_cases work w :
  match work (begun w) with
  | (Ok _, w1) => run_main_task work w = run_completed (pending_of w) w1
  | (Raise e, w1) => run_main_task work w = run_failed (pending_of w) e w1
  | (Exit c, w1) => run_main_task work w = (Exit c, w1)
  end.
Proof.
  unfold run_main_task, bind, try_except.
  rewrite run_begin_eq.
  destruct (work (begun w)) as [[u|e|c] w1]; reflexivity.
Qed.

Lemma run_main_task_completes work w u w1 :
  work (begun w) = (Ok u, w1) ->
  run_main_task work w = run_completed (pending_of w) w1.
Proof. intros H. generalize (run_main_task_cases work w). now rewrite H. Qed.

Lemma run_main_task_fails work w e w1 :
  work (begun w) = (Raise e, w1) ->
  run_main_task work w = run_failed (pending_of w) e w1.
Proof. intros H. generalize (run_main_task_cases work w). now rewrite H. Qed.

Lemma run_main_task_exits work w c w1 :
  work (begun w) = (Exit c, w1) ->
  run_main_task work w = (Exit c, w1).
Proof. intros H. generalize (run_main_task_cases work w). now rewrite H. Qed.

(** Case analysis on how the Work Unit of the run started in [w] ends, with
    the run rewritten accordingly. *)
Ltac by_outcome work w E :=
  let u := fresh "u" in
  let e := fresh "e" in
  let c := fresh "c" in
  let w1 := fresh "w1" in
  destruct (work (begun w)) as [[u|e|c] w1] eqn:E;
  [ rewrite ?(run_main_task_completes _ _ _ _ E) in *
  | rewrite ?(run_main_task_fails _ _ _ _ E) in *
  | rewrite ?(run_main_task_exits _ _ _ _ E) in * ].

(** The runner itself never exits: an exit is the Work Unit's. *)
Lemma run_main_task_exit_is_works work w c :
  fst (run_main_task work w) = Exit c -> fst (work (begun w)) = Exit c.
Proof. by_outcome work w E; simpl; congruence. Qed.

(** A run records exactly the record built from its locals, unless the Work
    Unit exits the process. *)
Lemma records_inv work w r :
  records work w r ->
  let w1 := snd (work (begun w)) in
  match fst (work (begun w)) with
  | Ok _ => r = record_of (pending_of w) "completed"
                          "Task completed successfully" w1
  | Raise e => r = record_of (pending_of w) "failed"
                             ("Task failed: " ++ str e) w1
  | Exit _ => False
  end.
Proof.
  unfold records. intros H.
  by_outcome work w E; simpl in *.
  - apply app_inj_tail in H. now destruct H.
  - apply app_inj_tail in H. now destruct H.
  - symmetry in H. now apply app_one_neq_self in H.
Qed.

Lemma auto_run_task_cases work w :
  match run_main_task work (warmed_up w) with
  | (Ok _, w1) =>
      auto_run_task work w =
      (Ok tt,
       emit [Log INFO [Str "Main task completed, scheduling shutdown..."];
             Sleep 5; Kill SIGTERM] w1)
  | (Raise e, w1) =>
      auto_run_task work w =
      (Exit 1,
       emit [Log ERROR [Str "Auto-task execution failed: "; Str (str e)]] w1)
  | (Exit c, w1) => auto_run_task work w = (Exit c, w1)
  end.
Proof.
  replace (warmed_up w)
    with (emit [Log INFO [Str "Auto-executing main task"]] (emit [Sleep 2] w))
    by apply emit_emit.
  unfold auto_run_task, bind, try_except, asyncio_sleep, logger_info,
    logger_error, os_kill_self, sys_exit.
  destruct (run_main_task work _) as [[r|e|c] w1]; try reflexivity.
  now rewrite !emit_emit.
Qed.

Lemma get_task_result_world i w : snd (get_task_result i w) = w.
Proof.
  unfold get_task_result, bind, get_task_results.
  now destruct (scan (task_results w) i).
Qed.

Lemma get_task_result_no_exit i w c : fst (get_task_result i w) <> Exit c.
Proof.
  unfold get_task_result, bind, get_task_results.
  now destruct (scan (task_results w) i).
Qed.

(** ** C2: the task id *)

Lemma decimal_value_from_string_of_uint (d : Decimal.uint) :
  forall acc,
    decimal_value_from acc (NilEmpty.string_of_uint d) =
    Some (Nat.of_uint_acc d acc).
Proof.
  induction d as [|d IH|d IH|d IH|d IH|d IH|d IH|d IH|d IH|d IH|d IH];
    intros acc; cbn [NilEmpty.string_of_uint decimal_value_from digit_value
                     Nat.of_uint_acc];
    [reflexivity | rewrite IH, Nat.tail_mul_spec; do 2 f_equal; lia ..].
Qed.

(** What the f-string of line 91 prints for [n] reads back as [n]. *)
Lemma decimal_value_str_nat (n : nat) : decimal_value (str_nat n) = Some n.
Proof.
  unfold str_nat, decimal_value.
  destruct (NilEmpty.string_of_uint (Nat.to_uint n)) as [|c s] eqn:E.
  - exfalso. destruct (Nat.to_uint n) eqn:U; try discriminate E.
    pose proof (Unsigned.to_of (Nat.to_uint n)) as T.
    rewrite Unsigned.of_to, U in T. symmetry in T.
    now apply DecimalFacts.unorm_nonnil in T.
  - rewrite <- E, decimal_value_from_string_of_uint.
    f_equal. apply Unsigned.of_to.
Qed.

Lemma str_nat_no_leading_zero (n : nat) :
  n <> 0%nat -> no_leading_zero (str_nat n).
Proof.
  intros Hn rest E. unfold str_nat in E.
  pose proof (Unsigned.to_of (Nat.to_uint n)) as T.
  rewrite Unsigned.of_to in T.
  destruct (Nat.to_uint n) as [|d| | | | | | | | |] eqn:U; try discriminate E.
  unfold Decimal.unorm in T. rewrite DecimalFacts.nzhead_D0 in T.
  destruct (Decimal.nzhead d) eqn:Z; try discriminate T.
  - apply Hn, Unsigned.to_uint_inj. now rewrite U, T.
  - now apply DecimalFacts.nzhead_nonzero in Z.
Qed.

(** C2.  Every invocation of the task runner names its result
    ["task_<n>"], with [n] one more than the number of results in the store
    when the runner was invoked, before the Work Unit begins.  The id is the
    five characters "task_" followed by the decimal numeral of [n]: digits
    that read back as [n], without a leading zero; so "task_1" on an empty
    store, "task_2" after one result, "task_10" after nine and "task_100"
    after ninety-nine.  The id is held in the run's locals at the await,
    and the record appended when the Work Unit ends carries it whether the
    Work Unit completed (status "completed", returned to the caller) or
    failed (status "failed", an error raised), also when the store changed
    while the Work Unit ran. *)
Theorem task_id_from_store_length_at_start (work : M unit) (w : World) :
  let n := (length (task_results w) + 1)%nat in
  exists digits,
    let id := ("task_" ++ digits)%string in
    decimal_value digits = Some n /\
    no_leading_zero digits /\
    (length (task_results w) = 0%nat -> id = "task_1") /\
    (length (task_results w) = 1%nat -> id = "task_2") /\
    (length (task_results w) = 9%nat -> id = "task_10") /\
    (length (task_results w) = 99%nat -> id = "task_100") /\
    run_begin w = (Ok (mkPending id (clock w (ticks w))), begun w) /\
    match work (begun w) with
    | (Ok _, w1) =>
        exists r, fst (run_main_task work w) = Ok r /\
                  task_results (snd (run_main_task work w)) =
                    task_results w1 ++ [r] /\
                  task_id r = id /\ status r = "completed"
    | (Raise e, w1) =>
        exists r x, fst (run_main_task work w) = Raise x /\
                    task_results (snd (run_main_task work w)) =
                      task_results w1 ++ [r] /\
                    task_id r = id /\ status r = "failed"
    | (Exit c, w1) => run_main_task work w = (Exit c, w1)
    end.
Proof.
  intros n. exists (str_nat n). cbv zeta.
  split; [apply decimal_value_str_nat|].
  split; [apply str_nat_no_leading_zero; unfold n; lia|].
  split; [unfold n; now intros ->|].
  split; [unfold n; now intros ->|].
  split; [unfold n; now intros ->|].
  split; [unfold n; intros ->; vm_compute; reflexivity|].
  split; [reflexivity|].
  by_outcome work w E.
  - eexists. repeat split.
  - do 2 eexists. repeat split.
  - reflexivity.
Qed.

Lemma task_results_begun w : task_results (begun w) = task_results w.
Proof. reflexivity. Qed.

Lemma task_id_from_store_length_at_start_witness :
  (exists r,
     fst (run_main_task simulate_work (boot steady_clock)) = Ok r /\
     task_id r = "task_1" /\ status r = "completed") /\
  length (task_results nine_runs_world) = 9%nat /\
  (exists r x,
     fst (run_main_task (failing "boom") nine_runs_world) = Raise x /\
     task_results (snd (run_main_task (failing "boom") nine_runs_world)) =
       task_results nine_runs_world ++ [r] /\
     task_id r = "task_10" /\ status r = "failed").
Proof.
  assert (L9 : length (task_results nine_runs_world) = 9%nat)
    by (vm_compute; reflexivity).
  split; [|split; [exact L9|]].
  - destruct (task_id_from_store_length_at_start simulate_work
                (boot steady_clock))
      as (digits & _ & _ & I & _ & _ & _ & _ & R).
    rewrite <- (I eq_refl).
    destruct (simulate_work (begun (boot steady_clock))) as [[u|e|c] w1] eqn:E;
      [|vm_compute in E; discriminate E ..].
    destruct R as (r & R1 & _ & R2 & R3). exists r.
    split; [exact R1|]. split; [exact R2|exact R3].
  - destruct (task_id_from_store_length_at_start (failing "boom")
                nine_runs_world)
      as (digits & _ & _ & _ & _ & I & _ & _ & R).
    rewrite <- (I L9).
    unfold failing, raise in R.
    destruct R as (r & x & R1 & R2 & R3 & R4). exists r, x.
    rewrite task_results_begun in R2.
    split; [exact R1|]. split; [exact R2|]. split; [exact R3|exact R4].
Defined.

(** The scenario of the first two runs of a fresh process. *)
Example first_two_runs :
  let w1 := serve simulate_work [http POST_run_task] (boot steady_clock) in
  let w2 := serve simulate_work [http POST_run_task; http POST_run_task]
                  (boot steady_clock) in
  map (fun r => (task_id r, status r)) (task_results w1) =
    [("task_1", "completed")] /\
  map (fun r => (task_id r, status r)) (task_results w2) =
    [("task_1", "completed"); ("task_2", "completed")].
Proof. vm_compute. split; reflexivity. Qed.

(** ** C3: a failure is recorded and raised *)

(** C3.  When the Work Unit of a run fails with an error [e], the runner
    appends exactly one record, with status "failed" and a message that
    embeds [str e], and raises to its caller instead of returning.  The two
    go together: the runner raises only when the Work Unit failed, and a
    run records a "failed" entry only when it raises. *)
Theorem work_failure_recorded_and_raised (work : M unit) (w : World) :
  (forall e w1, work (begun w) = (Raise e, w1) ->
     exists r,
       fst (run_main_task work w) =
         Raise (HTTPException 500 ("Task failed: " ++ str e)%string) /\
       task_results (snd (run_main_task work w)) = task_results w1 ++ [r] /\
       status r = "failed" /\
       message r = ("Task failed: " ++ str e)%string /\
       embeds (str e) (message r)) /\
  (forall x, fst (run_main_task work w) = Raise x ->
     exists e, fst (work (begun w)) = Raise e) /\
  (forall r, records work w r -> status r = "failed" ->
     exists x, fst (run_main_task work w) = Raise x).
Proof.
  split; [|split].
  - intros e w1 E. rewrite (run_main_task_fails _ _ _ _ E).
    eexists. repeat split. exact (embeds_suffix "Task failed: " (str e)).
  - intros x H. by_outcome work w E; try discriminate. now exists e.
  - intros r R S. apply records_inv in R. revert R.
    by_outcome work w E; simpl; intros R.
    + subst r. discriminate.
    + now eexists.
    + contradiction.
Qed.

Lemma work_failure_recorded_and_raised_witness :
  failing "boom" (begun (boot steady_clock)) =
    (Raise (Error "boom"), begun (boot steady_clock)) /\
  exists r,
    fst (run_main_task (failing "boom") (boot steady_clock)) =
      Raise (HTTPException 500 "Task failed: boom") /\
    task_results (snd (run_main_task (failing "boom") (boot steady_clock))) =
      [] ++ [r] /\
    status r = "failed" /\ message r = "Task failed: boom" /\
    embeds "boom" (message r).
Proof.
  split; [reflexivity|].
  exact (proj1 (work_failure_recorded_and_raised (failing "boom")
                  (boot steady_clock))
               (Error "boom") (begun (boot steady_clock)) eq_refl).
Defined.

(** ** C5: the error response of POST /run-task *)

(** C5, counterexample.  A fresh process whose Work Unit fails with "boom":
    the recorded message is "Task failed: boom" and the detail is that same
    string, not "Task failed: Task failed: boom" (lines 123 and 131 build
    the same f-string). *)
Lemma error_detail_does_not_wrap_message :
  ~ error_detail_wraps_recorded_message.
Proof.
  intros H.
  destruct (H (failing "boom") (boot steady_clock) (Error "boom") _ eq_refl)
    as (r & d & R & F & D & _).
  apply records_inv in R. simpl in R. subst r.
  simpl in F, D. subst d. discriminate.
Qed.

(** C5, amended.  When the Work Unit fails with [e] during POST /run-task,
    the handler raises [HTTPException] with status 500 whose detail is
    "Task failed: " followed by [str e]; the detail is the very message of
    the failed record of that run, and it contains [str e]. *)
Theorem error_detail_is_recorded_message
        (work : M unit) (w : World) (e : exn) (w1 : World) :
  work (begun w) = (Raise e, w1) ->
  exists r,
    records work w r /\ status r = "failed" /\
    fst (run_main_task work w) = Raise (HTTPException 500 (message r)) /\
    fst (handle work POST_run_task w) =
      Raise (HTTPException 500 (message r)) /\
    message r = ("Task failed: " ++ str e)%string /\
    embeds (str e) (message r).
Proof.
  intros E. unfold records, handle, bind.
  rewrite (run_main_task_fails _ _ _ _ E), E.
  eexists. repeat split.
  exact (embeds_suffix "Task failed: " (str e)).
Qed.

Lemma error_detail_is_recorded_message_witness :
  failing "boom" (begun (boot steady_clock)) =
    (Raise (Error "boom"), begun (boot steady_clock)) /\
  exists r,
    records (failing "boom") (boot steady_clock) r /\ status r = "failed" /\
    fst (run_main_task (failing "boom") (boot steady_clock)) =
      Raise (HTTPException 500 (message r)) /\
    fst (handle (failing "boom") POST_run_task (boot steady_clock)) =
      Raise (HTTPException 500 (message r)) /\
    message r = "Task failed: boom" /\
    embeds "boom" (message r).
Proof.
  split; [reflexivity|].
  exact (error_detail_is_recorded_message (failing "boom")
           (boot steady_clock) (Error "boom") (begun (boot steady_clock))
           eq_refl).
Defined.

(** ** C6: the duration *)

(** C6, counterexample.  [datetime.now()] is the local wall clock, which can
    be set back (a clock correction, the end of daylight saving time).  With
    the clock set back one hour while the sample Work Unit runs, the run
    started at reading 1 s ends at reading 2 s - 1 h and records a duration
    of -3599 seconds. *)
Lemma duration_negative_when_clock_set_back :
  ~ durations_never_negative.
Proof.
  intros H.
  pose (r := mkTaskResult "task_1" "completed" "Task completed successfully"
               (3000000 - 3600000000)%Z (-3599000000 # 1000000)%Q).
  assert (R : records simulate_work (boot stepped_back_clock) r)
    by (vm_compute; reflexivity).
  apply H in R. destruct R as [R _]. vm_compute in R. now apply R.
Qed.

(** C6, amended.  The duration of every recorded result, completed or
    failed, is the number of seconds from the clock reading taken at the
    start of the run ([task_start]) to the clock reading taken right after
    the Work Unit completed or failed; it is non-negative whenever that
    later reading is not earlier than the first.  (The record's timestamp is
    the reading after that one.) *)
Theorem duration_is_span_of_clock_readings
        (work : M unit) (w : World) (r : TaskResult) :
  records work w r ->
  let w1 := snd (work (begun w)) in
  let t0 := clock w (ticks w) in
  let t1 := clock w1 (ticks w1) in
  duration_seconds r = total_seconds (t1 - t0)%Z /\
  timestamp r = clock w1 (S (ticks w1)) /\
  ((t0 <= t1)%Z -> (0 <= duration_seconds r)%Q).
Proof.
  intros R. apply records_inv in R. simpl.
  assert (D : duration_seconds r =
              total_seconds (clock (snd (work (begun w)))
                                   (ticks (snd (work (begun w)))) -
                             clock w (ticks w))%Z /\
              timestamp r = clock (snd (work (begun w)))
                                  (S (ticks (snd (work (begun w)))))).
  { destruct (fst (work (begun w))); [subst r; now split .. | contradiction]. }
  destruct D as [D T]. repeat split; trivial.
  intros L. rewrite D. unfold total_seconds, Qle. simpl. lia.
Qed.

Lemma duration_is_span_of_clock_readings_witness :
  let r := mkTaskResult "task_1" "completed" "Task completed successfully"
                        3000000%Z (1000000 # 1000000)%Q in
  records simulate_work (boot steady_clock) r /\
  duration_seconds r = total_seconds (2000000 - 1000000)%Z /\
  timestamp r = 3000000%Z /\
  ((1000000 <= 2000000)%Z -> (0 <= duration_seconds r)%Q).
Proof.
  intros r.
  assert (R : records simulate_work (boot steady_clock) r)
    by (vm_compute; reflexivity).
  split; [exact R|].
  pose proof (duration_is_span_of_clock_readings simulate_work
                (boot steady_clock) r R) as T.
  vm_compute in T. vm_compute. exact T.
Defined.

(** ** C8 and C7: the auto-run at startup *)

(** C8.  The auto-run first waits the warm-up delay of 2, then invokes the
    task runner once, in the world right after that delay.  If the run
    returns, it waits the flush delay of 5 and then sends SIGTERM to its own
    process, in this order and as its last actions, and returns.  If the run
    raises, neither the flush delay nor the signal happens: the error is
    logged and the process exits.  The store, the clock position and the
    globals are those the single run left. *)
Theorem auto_run_sequence (work : M unit) (w : World) :
  let invoked_in := emit [Sleep 2; Log INFO [Str "Auto-executing main task"]] w in
  trace invoked_in = trace w ++ [Sleep 2; Log INFO [Str "Auto-executing main task"]] /\
  match run_main_task work invoked_in with
  | (Ok _, w1) =>
      exists w2,
        auto_run_task work w = (Ok tt, w2) /\
        trace w2 =
          trace w1 ++
          [Log INFO [Str "Main task completed, scheduling shutdown..."];
           Sleep 5; Kill SIGTERM] /\
        task_results w2 = task_results w1 /\ ticks w2 = ticks w1 /\
        start_time w2 = start_time w1
  | (Raise e, w1) =>
      exists w2,
        auto_run_task work w = (Exit 1, w2) /\
        trace w2 =
          trace w1 ++
          [Log ERROR [Str "Auto-task execution failed: "; Str (str e)]] /\
        task_results w2 = task_results w1 /\ ticks w2 = ticks w1 /\
        start_time w2 = start_time w1
  | (Exit c, w1) => auto_run_task work w = (Exit c, w1)
  end.
Proof.
  split; [reflexivity|].
  generalize (auto_run_task_cases work w). unfold warmed_up.
  destruct (run_main_task work _) as [[r|e|c] w1]; intros ->;
    [eexists; repeat split .. | reflexivity].
Qed.

(** The whole trace of a successful auto-run of the sample Work Unit in a
    fresh process. *)
Example auto_run_trace_of_sample :
  let out := auto_run_task simulate_work (boot steady_clock) in
  fst out = Ok tt /\
  map task_id (task_results (snd out)) = ["task_1"] /\
  filter (fun ev => match ev with Log _ _ => false | _ => true end)
         (trace (snd out)) =
    [Sleep 2; Sleep 2; Sleep 5; Sleep 3; Sleep 1; Sleep 2; Sleep 5;
     Kill SIGTERM].
Proof. vm_compute. repeat split. Qed.



(** ** C9: health *)

Lemma simulate_work_start_time : leaves_start_time simulate_work.
Proof. intros w. reflexivity. Qed.

Lemma run_main_task_start_time work w :
  leaves_start_time work ->
  start_time (snd (run_main_task work w)) = start_time w.
Proof.
  intros F. specialize (F (begun w)). revert F.
  by_outcome work w E; simpl; trivial.
Qed.

(** No operation of the program assigns [start_time], whatever the Work Unit
    as long as the Work Unit does not. *)
Lemma exec_start_time work (o : operation) (w : World) :
  leaves_start_time work ->
  start_time (snd (exec work o w)) = start_time w.
Proof.
  intros F. destruct o as [| | |[| | | |i]]; try reflexivity;
    unfold exec, handle; rewrite snd_bind_ret.
  - generalize (auto_run_task_cases work w).
    pose proof (run_main_task_start_time work (warmed_up w) F) as S.
    destruct (run_main_task work (warmed_up w)) as [[r|e|c] w1];
      intros ->; exact S.
  - now apply run_main_task_start_time.
  - now rewrite get_task_result_world.
Qed.

(** C9.  The health operation returns normally in every world, with status
    "healthy" and an uptime that is the span from [start_time] to the clock
    reading it takes; it changes neither [start_time] nor the store (nor the
    trace: it only advances the clock by its two readings).  [start_time] is
    the first clock reading, taken when the module is initialised, and no
    operation of the program changes it afterwards. *)
Theorem health_check_always_healthy_and_pure :
  (forall w,
     health_check w =
       (Ok (HealthResponse.mk "healthy" (clock w (S (ticks w)))
              (total_seconds (clock w (ticks w) - start_time w)%Z)),
        tick (tick w)) /\
     start_time (snd (health_check w)) = start_time w /\
     task_results (snd (health_check w)) = task_results w /\
     trace (snd (health_check w)) = trace w) /\
  (forall clk, start_time (boot clk) = clk 0%nat) /\
  (forall o w, start_time (snd (exec simulate_work o w)) = start_time w).
Proof.
  split; [|split].
  - intros w. repeat split.
  - reflexivity.
  - intros o w. apply exec_start_time, simulate_work_start_time.
Qed.

(** ** C4 and C10: lookup by task id *)

(** The loop of [get_task_result] stops at the first entry whose id
    matches. *)
Lemma scan_Some rs i r :
  scan rs i = Some r ->
  exists pre post, rs = pre ++ r :: post /\ task_id r = i /\
                   forall x, In x pre -> task_id x <> i.
Proof.
  induction rs as [|a rs IH]; simpl; [discriminate|].
  destruct (String.eqb_spec (task_id a) i) as [Ea|Na].
  - intros [= <-]. exists [], rs. repeat split; trivial. intros x [].
  - intros H. destruct (IH H) as (pre & post & -> & Hi & Hpre).
    exists (a :: pre), post. repeat split; trivial.
    intros x [<-|Hx]; auto.
Qed.

Lemma scan_None rs i :
  scan rs i = None <-> forall x, In x rs -> task_id x <> i.
Proof.
  induction rs as [|a rs IH]; simpl.
  - split; [intros _ x [] | reflexivity].
  - destruct (String.eqb_spec (task_id a) i) as [Ea|Na].
    + split; [discriminate|]. intros H. now destruct (H a (or_introl eq_refl)).
    + rewrite IH. split.
      * intros H x [<-|Hx]; auto.
      * intros H x Hx. apply H. now right.
Qed.

Lemma get_task_result_found w i r :
  scan (task_results w) i = Some r -> get_task_result i w = (Ok r, w).
Proof. unfold get_task_result, bind, get_task_results. now intros ->. Qed.

Lemma get_task_result_not_found w i :
  scan (task_results w) i = None ->
  get_task_result i w = (Raise (HTTPException 404 "Task not found"), w).
Proof. unfold get_task_result, bind, get_task_results. now intros ->. Qed.

(** The earliest entry under an id is the only one when ids are distinct. *)
Lemma first_match_unique (pre post : list TaskResult) first r :
  NoDup (map task_id (pre ++ first :: post)) ->
  In r (pre ++ first :: post) ->
  task_id first = task_id r ->
  (forall x, In x pre -> task_id x <> task_id r) ->
  first = r.
Proof.
  intros ND Hin Hid Hpre.
  apply in_app_or in Hin. destruct Hin as [Hin|[->|Hin]]; trivial.
  - now destruct (Hpre r Hin).
  - exfalso. rewrite map_app in ND. simpl in ND.
    apply NoDup_remove_2 in ND. apply ND.
    apply in_or_app. right. rewrite Hid. now apply in_map.
Qed.

(** The store after two overlapping runs in a fresh process: both entries
    are named "task_1". *)
Example overlapping_runs_share_an_id :
  map task_id (task_results overlapped_world) = ["task_1"; "task_1"] /\
  map timestamp (task_results overlapped_world) = [4000000%Z; 6000000%Z].
Proof. split; reflexivity. Qed.

(** C4, counterexample.  After two overlapping runs the store holds two
    different results under "task_1" (both runs read the store length 0
    before either appended); the lookup of the id of the second one returns
    the first one. *)
Lemma lookup_misses_later_duplicate :
  ~ lookup_returns_each_appended_result.
Proof.
  intros H.
  pose (r2 := mkTaskResult "task_1" "completed" "Task completed successfully"
                           6000000%Z (3000000 # 1000000)%Q).
  assert (I : In r2 (task_results overlapped_world))
    by (right; left; reflexivity).
  destruct H as [H _]. specialize (H overlapped_world r2 I).
  vm_compute in H. discriminate H.
Qed.

(** C4, amended.  For every result in the store, the lookup of its id
    returns the earliest-appended entry with that id, found by scanning the
    store from the front; that entry is the result itself whenever the ids
    in the store are distinct.  For every id that no entry of the store
    carries, the lookup raises [HTTPException 404 "Task not found"].  In
    both cases the lookup returns or raises (it never exits) and leaves the
    world as it was. *)
Theorem lookup_by_task_id (w : World) :
  (forall r, In r (task_results w) ->
     exists first pre post,
       get_task_result (task_id r) w = (Ok first, w) /\
       task_results w = pre ++ first :: post /\
       task_id first = task_id r /\
       (forall x, In x pre -> task_id x <> task_id r) /\
       (NoDup (map task_id (task_results w)) -> first = r)) /\
  (forall i, (forall r, In r (task_results w) -> task_id r <> i) ->
     get_task_result i w =
       (Raise (HTTPException 404 "Task not found"), w)).
Proof.
  split.
  - intros r Hin.
    destruct (scan (task_results w) (task_id r)) as [first|] eqn:S.
    + destruct (scan_Some _ _ _ S) as (pre & post & Hs & Hid & Hpre).
      exists first, pre, post. repeat split; trivial.
      * now apply get_task_result_found.
      * intros ND. rewrite Hs in ND, Hin.
        now apply (first_match_unique pre post).
    + rewrite scan_None in S. now destruct (S r Hin).
  - intros i H. apply get_task_result_not_found. now apply scan_None.
Qed.

Lemma lookup_by_task_id_witness :
  let w := serve simulate_work [http POST_run_task; http POST_run_task]
                 (boot steady_clock) in
  let r := mkTaskResult "task_2" "completed" "Task completed successfully"
                        6000000%Z (1000000 # 1000000)%Q in
  In r (task_results w) /\
  NoDup (map task_id (task_results w)) /\
  get_task_result "task_2" w = (Ok r, w) /\
  (forall x, In x (task_results w) -> task_id x <> "task_9") /\
  get_task_result "task_9" w =
    (Raise (HTTPException 404 "Task not found"), w).
Proof.
  intros w r.
  assert (S : task_results w =
              [mkTaskResult "task_1" "completed" "Task completed successfully"
                            3000000%Z (1000000 # 1000000)%Q; r])
    by (vm_compute; reflexivity).
  assert (I : In r (task_results w)) by (rewrite S; right; left; reflexivity).
  assert (ND : NoDup (map task_id (task_results w))).
  { rewrite S. repeat constructor; simpl; intuition discriminate. }
  assert (F : forall x, In x (task_results w) -> task_id x <> "task_9").
  { rewrite S. intros x [<-|[<-|[]]]; discriminate. }
  destruct (lookup_by_task_id w) as [A B].
  destruct (A r I) as (first & pre & post & G & _ & _ & _ & U).
  rewrite (U ND) in G.
  split; [exact I|]. split; [exact ND|]. split; [exact G|].
  split; [exact F|]. exact (B "task_9" F).
Defined.

(** C10.  When the store holds more than one entry under an id, the lookup
    of that id returns the earliest-appended of them: every entry before the
    returned one carries another id.  The lookup leaves the world, and so
    the store, as it was. *)
Theorem lookup_with_duplicate_ids (w : World) (i : string) :
  (1 < length (filter (fun r => String.eqb (task_id r) i) (task_results w)))%nat ->
  exists first pre post,
    get_task_result i w = (Ok first, w) /\
    task_results w = pre ++ first :: post /\
    task_id first = i /\
    (forall x, In x pre -> task_id x <> i) /\
    task_results (snd (get_task_result i w)) = task_results w.
Proof.
  intros D.
  destruct (scan (task_results w) i) as [first|] eqn:S.
  - destruct (scan_Some _ _ _ S) as (pre & post & Hs & Hid & Hpre).
    exists first, pre, post.
    rewrite (get_task_result_found _ _ _ S). repeat split; trivial.
  - exfalso. rewrite scan_None in S.
    destruct (filter _ (task_results w)) as [|x l] eqn:F; simpl in D; [lia|].
    assert (Hx : In x (filter (fun r => String.eqb (task_id r) i)
                              (task_results w))) by (rewrite F; now left).
    apply filter_In in Hx. destruct Hx as [Hx E].
    apply String.eqb_eq in E. now apply (S x).
Qed.

Lemma lookup_with_duplicate_ids_witness :
  (1 < length (filter (fun r => String.eqb (task_id r) "task_1")
                      (task_results overlapped_world)))%nat /\
  exists first pre post,
    get_task_result "task_1" overlapped_world = (Ok first, overlapped_world) /\
    task_results overlapped_world = pre ++ first :: post /\
    task_id first = "task_1" /\
    (forall x, In x pre -> task_id x <> "task_1") /\
    task_results (snd (get_task_result "task_1" overlapped_world)) =
      task_results overlapped_world.
Proof.
  assert (D : (1 < length (filter (fun r => String.eqb (task_id r) "task_1")
                             (task_results overlapped_world)))%nat)
    by (vm_compute; lia).
  split; [exact D|].
  exact (lookup_with_duplicate_ids overlapped_world "task_1" D).
Defined.

(** ** C1: the store after a sequence of runs *)

Lemma task_number_of_name n : task_number (task_name_of n) = Some n.
Proof.
  change (task_name_of n)
    with (String "t" (String "a" (String "s" (String "k"
            (String "_" (str_nat n)))))).
  unfold task_number, str_nat.
  rewrite NilEmpty.usu. simpl. f_equal. apply Unsigned.of_to.
Qed.

Lemma task_name_of_inj n m : task_name_of n = task_name_of m -> n = m.
Proof.
  intros H. apply (f_equal task_number) in H.
  rewrite !task_number_of_name in H. congruence.
Qed.

Lemma NoDup_task_names (l : list nat) :
  NoDup l -> NoDup (map task_name_of l).
Proof.
  induction 1 as [|x l Hx ND IH]; simpl; constructor; trivial.
  rewrite in_map_iff. intros (y & E & Hy).
  apply task_name_of_inj in E. now subst y.
Qed.

Lemma increasing_of_names (rs : list TaskResult) (n : nat) :
  map task_id rs = map task_name_of (seq 1 n) ->
  ids_strictly_increasing rs.
Proof.
  intros E i j ri rj Hij Hi Hj.
  assert (N : forall k r, nth_error rs k = Some r ->
                          task_id r = task_name_of (1 + k)).
  { intros k r H. apply (map_nth_error task_id) in H.
    rewrite E, nth_error_map, nth_error_seq in H.
    destruct (Nat.ltb k n); cbn [option_map] in H; [|discriminate].
    now injection H as <-. }
  exists (1 + i)%nat, (1 + j)%nat.
  rewrite (N _ _ Hi), (N _ _ Hj), !task_number_of_name.
  repeat split. lia.
Qed.

Section AppendOnly.

Variable work : M unit.
Hypothesis work_extends_store : extends_store work.

Lemma run_main_task_extends w :
  is_prefix (task_results w) (task_results (snd (run_main_task work w))).
Proof.
  pose proof (work_extends_store (begun w)) as P. revert P.
  by_outcome work w E; simpl; intros P; trivial;
    (eapply is_prefix_trans; [exact P|]); auto with store.
Qed.

(** The store after the auto-run is the store after the run it makes. *)
Lemma auto_run_task_store w :
  task_results (snd (auto_run_task work w)) =
  task_results (snd (run_main_task work (warmed_up w))).
Proof.
  generalize (auto_run_task_cases work w).
  now destruct (run_main_task work (warmed_up w)) as [[r|e|c] w1];
    intros ->.
Qed.

(** Every operation of the program leaves the entries already in the store
    where and as they are. *)
Lemma exec_extends (o : operation) (w : World) :
  is_prefix (task_results w) (task_results (snd (exec work o w))).
Proof.
  destruct o as [| | |[| | | |i]]; try apply is_prefix_refl;
    unfold exec, handle; rewrite snd_bind_ret.
  - rewrite auto_run_task_store. apply (run_main_task_extends (warmed_up w)).
  - apply run_main_task_extends.
  - rewrite get_task_result_world. apply is_prefix_refl.
Qed.

Lemma serve_extends (ops : list operation) :
  forall w, is_prefix (task_results w) (task_results (serve work ops w)).
Proof.
  induction ops as [|o ops IH]; intros w; simpl.
  - apply is_prefix_refl.
  - pose proof (exec_extends o w) as P.
    destruct (exec work o w) as [[b|e|c] w1]; simpl in P; trivial;
      eapply is_prefix_trans; eauto.
Qed.

(** The store at any earlier point of a sequence of operations is a prefix
    of the store at its end. *)
Lemma serve_firstn_prefix (ops : list operation) :
  forall k w,
    is_prefix (task_results (serve work (firstn k ops) w))
              (task_results (serve work ops w)).
Proof.
  induction ops as [|o ops IH]; intros k w.
  - rewrite firstn_nil. apply is_prefix_refl.
  - destruct k as [|k]; [apply (serve_extends (o :: ops))|].
    simpl. destruct (exec work o w) as [[b|e|c] w1];
      auto using is_prefix_refl.
Qed.

End AppendOnly.

Lemma leaves_store_extends work : leaves_store work -> extends_store work.
Proof. intros F w. rewrite F. apply is_prefix_refl. Qed.

Section Sequential.

Variable work : M unit.
Hypothesis work_leaves_store : leaves_store work.

(** One run appends one record, named after the store length it found,
    unless the Work Unit exits the process. *)
Lemma run_main_task_appends w :
  match fst (work (begun w)) with
  | Exit c => task_results (snd (run_main_task work w)) = task_results w
  | _ =>
      exists r,
        task_results (snd (run_main_task work w)) = task_results w ++ [r] /\
        task_id r = task_name_of (length (task_results w) + 1)
  end.
Proof.
  pose proof (work_leaves_store (begun w)) as F. revert F.
  by_outcome work w E; simpl; intros ->; trivial;
    eexists; split; reflexivity.
Qed.

Hypothesis work_completes_or_fails : completes_or_fails work.

Lemma run_main_task_adds w :
  exists r,
    task_results (snd (run_main_task work w)) = task_results w ++ [r] /\
    task_id r = task_name_of (length (task_results w) + 1).
Proof.
  pose proof (run_main_task_appends w) as H.
  pose proof (work_completes_or_fails (begun w)) as T.
  now destruct (fst (work (begun w))).
Qed.

(** What one operation adds to the store. *)
Lemma exec_adds (o : operation) (w : World) :
  exists added,
    task_results (snd (exec work o w)) = task_results w ++ added /\
    map task_id added =
      if is_run o then [task_name_of (length (task_results w) + 1)] else [].
Proof.
  destruct o as [| | |[| | | |i]];
    try (exists []; now rewrite app_nil_r);
    unfold exec, handle; rewrite snd_bind_ret.
  - rewrite auto_run_task_store.
    destruct (run_main_task_adds (warmed_up w)) as (r & S & I).
    exists [r]. simpl. now rewrite I.
  - destruct (run_main_task_adds w) as (r & S & I).
    exists [r]. simpl. now rewrite I.
  - rewrite get_task_result_world. exists []. now rewrite app_nil_r.
Qed.

Lemma serve_adds (ops : list operation) :
  forall w, exists added,
    task_results (serve work ops w) = task_results w ++ added /\
    map task_id added =
      map task_name_of (seq (length (task_results w) + 1)
                            (runs (executed work ops w))).
Proof.
  induction ops as [|o ops IH]; intros w.
  - exists []. now rewrite app_nil_r.
  - destruct (exec_adds o w) as (a & Sa & Ia).
    assert (La : length a = if is_run o then 1%nat else 0%nat).
    { rewrite <- (length_map task_id), Ia. now destruct (is_run o). }
    unfold runs. simpl.
    destruct (exec work o w) as [[b|e|c] w1]; simpl in Sa;
      [destruct (IH w1) as (a' & Sa' & Ia'); exists (a ++ a'); split;
       [now rewrite Sa', Sa, app_assoc|];
       rewrite map_app, Ia, Ia', Sa, length_app, La; fold (runs (executed work ops w1)) ..
      | exists a; split; [exact Sa|rewrite Ia] ];
      destruct (is_run o); simpl; rewrite ?Nat.add_0_r; trivial;
      now replace (length (task_results w) + 1 + 1)%nat
        with (S (length (task_results w) + 1)) by lia.
Qed.

(** HTTP requests never end the process. *)
Lemma executed_requests (reqs : list request) :
  forall w, executed work (map http reqs) w = map http reqs.
Proof.
  induction reqs as [|req reqs IH]; intros w; simpl; [reflexivity|].
  f_equal.
  assert (NE : forall c, fst (handle work req w) <> Exit c).
  { intros c H. destruct req as [| | | |i]; try discriminate;
      unfold handle in H; apply exit_bind_ret in H.
    - apply run_main_task_exit_is_works in H.
      pose proof (work_completes_or_fails (begun w)) as T.
      now rewrite H in T.
    - now apply get_task_result_no_exit in H. }
  destruct (handle work req w) as [[b|e|c] w1]; auto.
  now destruct (NE c).
Qed.

End Sequential.

Lemma failing_at_leaves_store k text : leaves_store (failing_at k text).
Proof.
  intros w. unfold failing_at.
  now destruct (Nat.eqb (length (task_results w)) k).
Qed.

Lemma failing_at_completes_or_fails k text :
  completes_or_fails (failing_at k text).
Proof.
  intros w. unfold failing_at.
  now destruct (Nat.eqb (length (task_results w)) k).
Qed.

(** The sample lifetime with a Work Unit that fails on the second run: the
    auto-run and three requested runs leave four entries. *)
Example sample_operations_store :
  map (fun r => (task_id r, status r))
      (task_results (serve (failing_at 1 "boom") sample_operations
                           (boot steady_clock))) =
    [("task_1", "completed"); ("task_2", "failed");
     ("task_3", "completed"); ("task_4", "completed")].
Proof. vm_compute. reflexivity. Qed.

(** C1.  Let operations be carried out one after another from a fresh
    process, with a Work Unit that completes or fails and during which
    nothing else touches the store (no overlapping run).  If [n] task runs
    were executed (by POST /run-task or by the auto-run), the store then
    holds exactly [n] entries, named "task_1" to "task_n" in the order they
    were appended: the ids are pairwise distinct and their numbers strictly
    increasing.  The store only grows at its end: at every earlier point of
    the sequence it was a prefix of the final store, and every single
    operation of the program, from any world, leaves the entries it found
    in place and unchanged, also with a Work Unit during which the store
    grows (other runs completing).  For a sequence of HTTP requests, [n] is the
    number of POST /run-task among them. *)
Theorem sequential_runs_fill_store
        (work : M unit) (clk : nat -> datetime) (ops : list operation) :
  leaves_store work -> completes_or_fails work ->
  let w := serve work ops (boot clk) in
  let n := runs (executed work ops (boot clk)) in
  length (task_results w) = n /\
  map task_id (task_results w) = map task_name_of (seq 1 n) /\
  NoDup (map task_id (task_results w)) /\
  ids_strictly_increasing (task_results w) /\
  (forall k, is_prefix (task_results (serve work (firstn k ops) (boot clk)))
                       (task_results w)) /\
  (forall work' o w0,
     extends_store work' ->
     is_prefix (task_results w0) (task_results (snd (exec work' o w0)))) /\
  (forall reqs, ops = map http reqs -> n = runs ops).
Proof.
  intros F T w n.
  destruct (serve_adds work F T ops (boot clk)) as (added & S & I).
  simpl in S, I. fold w in S. fold n in I.
  assert (E : map task_id (task_results w) = map task_name_of (seq 1 n))
    by now rewrite S.
  split; [|split; [exact E|split; [|split; [|split; [|split]]]]].
  - rewrite <- (length_map task_id), E, length_map. apply length_seq.
  - rewrite E. apply NoDup_task_names, seq_NoDup.
  - now apply (increasing_of_names _ n).
  - intros k. now apply serve_firstn_prefix, leaves_store_extends.
  - intros work' o w0 X. now apply exec_extends.
  - intros reqs ->. unfold n. now rewrite executed_requests.
Qed.

Lemma sequential_runs_fill_store_witness :
  leaves_store (failing_at 1 "boom") /\
  completes_or_fails (failing_at 1 "boom") /\
  let w := serve (failing_at 1 "boom") sample_operations (boot steady_clock) in
  let n := runs (executed (failing_at 1 "boom") sample_operations
                          (boot steady_clock)) in
  length (task_results w) = n /\
  map task_id (task_results w) = map task_name_of (seq 1 n) /\
  NoDup (map task_id (task_results w)) /\
  ids_strictly_increasing (task_results w) /\
  (forall k, is_prefix
               (task_results (serve (failing_at 1 "boom")
                                (firstn k sample_operations)
                                (boot steady_clock)))
               (task_results w)) /\
  (forall work' o w0,
     extends_store work' ->
     is_prefix (task_results w0) (task_results (snd (exec work' o w0)))) /\
  (forall reqs, sample_operations = map http reqs ->
                n = runs sample_operations).
Proof.
  split; [apply failing_at_leaves_store|].
  split; [apply failing_at_completes_or_fails|].
  exact (sequential_runs_fill_store (failing_at 1 "boom") steady_clock
           sample_operations (failing_at_leaves_store 1 "boom")
           (failing_at_completes_or_fails 1 "boom")).
Defined.

(** * Further properties of the code *)

(** ** The sample Work Unit *)

Lemma emit_nil w : emit [] w = w.
Proof. destruct w. unfold emit. simpl. now rewrite app_nil_r. Qed.

Lemma sleeps_app a b : sleeps (a ++ b) = sleeps a ++ sleeps b.
Proof. unfold sleeps. now rewrite flat_map_app. Qed.

Lemma signals_app a b : signals (a ++ b) = signals a ++ signals b.
Proof. unfold signals. now rewrite flat_map_app. Qed.

Lemma slept_app a b : (slept (a ++ b) = slept a + slept b)%nat.
Proof. unfold slept. now rewrite sleeps_app, list_sum_app. Qed.

(** The loop of [simulate_work] over any list of steps. *)
Lemma for_each_step_events (l : list (string * nat)) :
  forall w,
    for_each l (fun '(task_name, duration) =>
                  logger_info [Str "Executing: "; Str task_name] ;;
                  asyncio_sleep duration ;;
                  logger_info [Str "Completed: "; Str task_name]) w =
    (Ok tt, emit (flat_map step_events l) w).
Proof.
  set (body := fun '(task_name, duration) => _).
  assert (B : forall step w, body step w = (Ok tt, emit (step_events step) w)).
  { intros [task_name duration] w. unfold body, bind, logger_info,
      asyncio_sleep, step_events. now rewrite !emit_emit. }
  induction l as [|step l IH]; intros w.
  - simpl. now rewrite emit_nil.
  - cbn [for_each flat_map]. unfold bind. now rewrite B, IH, emit_emit.
Qed.

Lemma sleeps_step_events (l : list (string * nat)) :
  sleeps (flat_map step_events l) = map snd l.
Proof.
  induction l as [|[task_name duration] l IH]; [reflexivity|].
  cbn [flat_map]. rewrite sleeps_app, IH. reflexivity.
Qed.

Lemma signals_step_events (l : list (string * nat)) :
  signals (flat_map step_events l) = [].
Proof.
  induction l as [|[task_name duration] l IH]; [reflexivity|].
  cbn [flat_map]. rewrite signals_app, IH. reflexivity.
Qed.

(** The events of [simulate_work]. *)
Lemma simulate_work_eq w :
  simulate_work w =
  (Ok tt,
   emit (Log INFO [Str "Performing automation work..."]
           :: flat_map step_events tasks
           ++ [Log INFO [Str "All automation work completed"]]) w).
Proof.
  unfold simulate_work.
  set (body := fun '(task_name, duration) => _).
  pose proof (for_each_step_events tasks) as L. fold body in L.
  unfold bind, logger_info. now rewrite L, !emit_emit.
Qed.

(** X1.  The sample Work Unit returns normally in every world: it never
    raises and never exits.  It adds to the trace one opening line, for each
    of its steps in order the line "Executing", the step's delay and the
    line "Completed", and one closing line; so it sleeps 2, 5, 3, 1 and 2
    seconds, 13 in all, and sends no signal.  It changes nothing else:
    neither the store, nor [start_time], nor the clock or its position. *)
Theorem simulate_work_always_completes (w : World) :
  exists evs,
    simulate_work w = (Ok tt, emit evs w) /\
    evs = Log INFO [Str "Performing automation work..."]
            :: flat_map step_events tasks
            ++ [Log INFO [Str "All automation work completed"]] /\
    sleeps evs = map snd tasks /\
    slept evs = 13%nat /\
    signals evs = [] /\
    task_results (emit evs w) = task_results w /\
    start_time (emit evs w) = start_time w /\
    clock (emit evs w) = clock w /\
    ticks (emit evs w) = ticks w.
Proof.
  eexists. split; [apply simulate_work_eq|].
  repeat split.
Qed.

(** X2.  With the sample Work Unit the task runner returns normally in every
    world: the failure path is never taken.  The result is named after the
    store length found, has status "completed" and is appended to the
    store.  As the sample Work Unit reads no clock, the run takes three
    consecutive readings: the duration spans the first two and the
    timestamp is the third. *)
Theorem sample_run_always_completes (w : World) :
  exists r,
    fst (run_main_task simulate_work w) = Ok r /\
    task_results (snd (run_main_task simulate_work w)) =
      task_results w ++ [r] /\
    task_id r = task_name_of (length (task_results w) + 1) /\
    status r = "completed" /\
    message r = "Task completed successfully" /\
    duration_seconds r =
      total_seconds (clock w (S (ticks w)) - clock w (ticks w))%Z /\
    timestamp r = clock w (S (S (ticks w))) /\
    ticks (snd (run_main_task simulate_work w)) = (ticks w + 3)%nat /\
    start_time (snd (run_main_task simulate_work w)) = start_time w.
Proof.
  rewrite (run_main_task_completes _ _ tt _ (simulate_work_eq (begun w))).
  eexists. repeat split. simpl. lia.
Qed.

(** X3.  With the sample Work Unit the auto-run returns normally in every
    world and never exits with status 1: it appends one "completed" result,
    sleeps 2 (warm-up), 2, 5, 3, 1, 2 (the work) and 5 (flush) seconds, 20 in
    all, and sends exactly one signal, SIGTERM, as its last action. *)
Theorem sample_auto_run_ends_in_sigterm (w : World) :
  exists r evs,
    fst (auto_run_task simulate_work w) = Ok tt /\
    task_results (snd (auto_run_task simulate_work w)) =
      task_results w ++ [r] /\
    task_id r = task_name_of (length (task_results w) + 1) /\
    status r = "completed" /\
    trace (snd (auto_run_task simulate_work w)) = trace w ++ evs /\
    sleeps evs = [2; 2; 5; 3; 1; 2; 5]%nat /\
    slept evs = 20%nat /\
    signals evs = [SIGTERM] /\
    last evs (Sleep 0) = Kill SIGTERM.
Proof.
  generalize (auto_run_task_cases simulate_work w).
  rewrite (run_main_task_completes _ _ tt _
             (simulate_work_eq (begun (warmed_up w)))).
  rewrite run_completed_eq. cbv zeta. intros ->.
  do 2 eexists. split; [reflexivity|]. split; [reflexivity|].
  split; [reflexivity|]. split; [reflexivity|].
  split; [simpl; rewrite <- !app_assoc; reflexivity|].
  repeat split.
Qed.

(** ** What the operations other than runs do and never do *)

Lemma exec_of_non_run (work : M unit) (o : operation) (w : World) :
  is_run o = false ->
  task_results (snd (exec work o w)) = task_results w /\
  start_time (snd (exec work o w)) = start_time w /\
  (forall c, fst (exec work o w) <> Exit c) /\
  clock (snd (exec work o w)) = clock w /\
  (ticks w <= ticks (snd (exec work o w)))%nat /\
  exists evs, trace (snd (exec work o w)) = trace w ++ evs /\
              signals evs = [].
Proof.
  intros R.
  destruct o as [| | |[| | | |i]]; try discriminate R;
    try (simpl; repeat split; try discriminate; try lia;
         first [ now exists []; rewrite app_nil_r
               | eexists; split; [symmetry; apply app_assoc || reflexivity
                                 | reflexivity] ]).
  unfold exec, handle. rewrite snd_bind_ret, get_task_result_world.
  repeat split; try lia.
  - intros c H. apply exit_bind_ret in H.
    now apply get_task_result_no_exit in H.
  - exists []. now rewrite app_nil_r.
Qed.


(** X4.  Only task runs write to the store.  Every other operation (the two
    logging hooks, GET /, GET /health, GET /tasks, GET /tasks/{id}) leaves
    the store and [start_time] exactly as they were, whatever the Work Unit
    of the server is; it never exits the process, keeps the clock oracle and
    never rewinds it, and sends no signal. *)
Theorem only_runs_write_the_store
        (work : M unit) (o : operation) (w : World) :
  is_run o = false ->
  task_results (snd (exec work o w)) = task_results w /\
  start_time (snd (exec work o w)) = start_time w /\
  (forall c, fst (exec work o w) <> Exit c) /\
  clock (snd (exec work o w)) = clock w /\
  (ticks w <= ticks (snd (exec work o w)))%nat /\
  exists evs, trace (snd (exec work o w)) = trace w ++ evs /\
              signals evs = [].
Proof. apply exec_of_non_run. Qed.

Lemma only_runs_write_the_store_witness :
  is_run (http GET_health) = false /\
  task_results (snd (exec (failing "boom") (http GET_health)
                          (boot steady_clock))) = [] /\
  ticks (snd (exec (failing "boom") (http GET_health)
                   (boot steady_clock))) = 3%nat.
Proof.
  destruct (only_runs_write_the_store (failing "boom") (http GET_health)
              (boot steady_clock) eq_refl) as (S & _).
  split; [reflexivity|]. split; [exact S|reflexivity].
Defined.

(** X5.  A handler never lets a raw exception through.  Whatever the Work
    Unit raises, an HTTP handler that raises does so with an
    [HTTPException]: POST /run-task with status 500 and the detail
    "Task failed: " followed by the text of the error its Work Unit raised,
    GET /tasks/{id} with status 404 and the detail "Task not found" when no
    entry of the store carries the id.  GET /, GET /health and GET /tasks
    never raise. *)
Theorem handlers_raise_only_http_errors
        (work : M unit) (req : request) (w : World) (x : exn) :
  fst (handle work req w) = Raise x ->
  (req = POST_run_task /\
   exists e, fst (work (begun w)) = Raise e /\
             x = HTTPException 500 ("Task failed: " ++ str e)%string) \/
  (exists i, req = GET_task i /\
             x = HTTPException 404 "Task not found" /\
             forall r, In r (task_results w) -> task_id r <> i).
Proof.
  destruct req as [| | | |i]; try discriminate.
  - intros H. left. split; [reflexivity|].
    unfold handle, bind in H. revert H.
    by_outcome work w E; simpl; try discriminate.
    intros [= <-]. now exists e.
  - intros H. right. exists i. split; [reflexivity|].
    unfold handle, bind in H.
    destruct (scan (task_results w) i) eqn:S.
    + rewrite (get_task_result_found _ _ _ S) in H. discriminate.
    + rewrite (get_task_result_not_found _ _ S) in H. injection H as <-.
      split; [reflexivity|]. now apply scan_None.
Qed.

Lemma handlers_raise_only_http_errors_witness :
  fst (handle (failing "boom") POST_run_task (boot steady_clock)) =
    Raise (HTTPException 500 "Task failed: boom") /\
  ((POST_run_task = POST_run_task /\
    exists e, fst (failing "boom" (begun (boot steady_clock))) = Raise e /\
              HTTPException 500 "Task failed: boom" =
              HTTPException 500 ("Task failed: " ++ str e)%string) \/
   (exists i, POST_run_task = GET_task i /\
              HTTPException 500 "Task failed: boom" =
              HTTPException 404 "Task not found" /\
              forall r, In r (task_results (boot steady_clock)) ->
                        task_id r <> i)).
Proof.
  split; [reflexivity|].
  exact (handlers_raise_only_http_errors (failing "boom") POST_run_task
           (boot steady_clock) _ eq_refl).
Defined.

(** ** The history after a run *)

(** X6.  GET /tasks returns the whole store, in append order, and changes
    nothing; in a fresh process it returns the empty list.  Right after a
    run it shows the outcome of that run as its last entry: the result the
    runner returned, or, when the runner raised, a "failed" entry whose
    message is the detail of the raised [HTTPException].  When the Work Unit
    exited the process, nothing was added. *)
Theorem history_shows_the_run (work : M unit) (w : World) :
  (forall w0, get_task_history w0 = (Ok (task_results w0), w0)) /\
  (forall clk, fst (get_task_history (boot clk)) = Ok []) /\
  let before := task_results (snd (work (begun w))) in
  match run_main_task work w with
  | (Ok r, w') => fst (get_task_history w') = Ok (before ++ [r])
  | (Raise x, w') =>
      exists r, fst (get_task_history w') = Ok (before ++ [r]) /\
                status r = "failed" /\
                x = HTTPException 500 (message r)
  | (Exit _, w') => fst (get_task_history w') = Ok before
  end.
Proof.
  split; [reflexivity|]. split; [reflexivity|].
  by_outcome work w E; simpl; trivial.
  eexists. repeat split.
Qed.

(** ** Ids and lookups *)

(** X7.  The id format can be read back: the number in "task_<n>" is [n],
    so ids built from different store lengths are different strings, and no
    id is the empty string. *)
Theorem task_ids_are_injective (n m : nat) :
  task_number (task_name_of n) = Some n /\
  (task_name_of n = task_name_of m <-> n = m) /\
  task_name_of n <> "".
Proof.
  split; [apply task_number_of_name|]. split.
  - split; [apply task_name_of_inj | now intros ->].
  - discriminate.
Qed.

Lemma scan_In rs r :
  In r rs -> exists first, scan rs (task_id r) = Some first.
Proof.
  intros Hin. destruct (scan rs (task_id r)) as [first|] eqn:S.
  - now exists first.
  - rewrite scan_None in S. now destruct (S r Hin).
Qed.

(** With distinct ids the lookup of an entry's id returns the entry. *)
Lemma get_task_result_exact w r :
  NoDup (map task_id (task_results w)) ->
  In r (task_results w) ->
  get_task_result (task_id r) w = (Ok r, w).
Proof.
  intros ND Hin. destruct (scan_In _ _ Hin) as (first & S).
  rewrite (get_task_result_found _ _ _ S).
  destruct (scan_Some _ _ _ S) as (pre & post & Hs & Hid & Hpre).
  rewrite Hs in ND, Hin.
  now rewrite (first_match_unique pre post first r ND Hin Hid Hpre).
Qed.

(** X8.  Insert and look up.  In every state reached by operations carried
    out one after another from a fresh process (with a Work Unit that
    completes or fails and leaves the store alone), each stored result is
    returned by the lookup of its own id, the entry at position [k] (from 0)
    is the one named "task_<k+1>", and the lookup of "task_<m>" for [m]
    beyond the number of runs, or of 0, raises 404. *)
Theorem sequential_lookup_is_exact
        (work : M unit) (clk : nat -> datetime) (ops : list operation) :
  leaves_store work -> completes_or_fails work ->
  let w := serve work ops (boot clk) in
  (forall r, In r (task_results w) ->
             get_task_result (task_id r) w = (Ok r, w)) /\
  (forall k r, nth_error (task_results w) k = Some r ->
               task_id r = task_name_of (k + 1) /\
               get_task_result (task_name_of (k + 1)) w = (Ok r, w)) /\
  (forall m, (m = 0 \/ length (task_results w) < m)%nat ->
             get_task_result (task_name_of m) w =
               (Raise (HTTPException 404 "Task not found"), w)).
Proof.
  intros F T w.
  destruct (serve_adds work F T ops (boot clk)) as (added & S & I).
  simpl in S, I. fold w in S.
  set (n := runs (executed work ops (boot clk))) in *.
  assert (E : map task_id (task_results w) = map task_name_of (seq 1 n))
    by now rewrite S.
  assert (ND : NoDup (map task_id (task_results w)))
    by (rewrite E; apply NoDup_task_names, seq_NoDup).
  assert (L : length (task_results w) = n)
    by (rewrite <- (length_map task_id), E, length_map; apply length_seq).
  assert (N : forall k r, nth_error (task_results w) k = Some r ->
                          task_id r = task_name_of (k + 1)).
  { intros k r H. apply (map_nth_error task_id) in H.
    rewrite E, nth_error_map, nth_error_seq in H.
    destruct (Nat.ltb k n); cbn [option_map] in H; [|discriminate].
    injection H as <-. f_equal. lia. }
  split; [|split].
  - intros r Hin. now apply get_task_result_exact.
  - intros k r H. split; [now apply N|].
    rewrite <- (N k r H). apply get_task_result_exact; trivial.
    now apply nth_error_In in H.
  - intros m Hm. apply get_task_result_not_found, scan_None.
    intros r Hin Hid. apply In_nth_error in Hin. destruct Hin as (k & Hk).
    assert (Hlt : (k < length (task_results w))%nat)
      by (apply nth_error_Some; congruence).
    rewrite (N k r Hk) in Hid. apply task_name_of_inj in Hid. lia.
Qed.

Lemma sequential_lookup_is_exact_witness :
  leaves_store (failing_at 1 "boom") /\
  completes_or_fails (failing_at 1 "boom") /\
  let w := serve (failing_at 1 "boom") sample_operations (boot steady_clock) in
  (forall r, In r (task_results w) ->
             get_task_result (task_id r) w = (Ok r, w)) /\
  (forall k r, nth_error (task_results w) k = Some r ->
               task_id r = task_name_of (k + 1) /\
               get_task_result (task_name_of (k + 1)) w = (Ok r, w)) /\
  (forall m, (m = 0 \/ length (task_results w) < m)%nat ->
             get_task_result (task_name_of m) w =
               (Raise (HTTPException 404 "Task not found"), w)).
Proof.
  split; [apply failing_at_leaves_store|].
  split; [apply failing_at_completes_or_fails|].
  exact (sequential_lookup_is_exact (failing_at 1 "boom") steady_clock
           sample_operations (failing_at_leaves_store 1 "boom")
           (failing_at_completes_or_fails 1 "boom")).
Defined.

(** ** Runs that overlap *)

(** The store after two overlapping runs. *)
Lemma two_overlapping_store (o1 o2 : option exn) (swap : bool) (w : World) :
  fst (two_overlapping o1 o2 swap w) = Ok tt /\
  exists r1 r2,
    task_results (snd (two_overlapping o1 o2 swap w)) =
      task_results w ++ [r1; r2] /\
    task_id r1 = task_name_of (length (task_results w) + 1) /\
    task_id r2 = task_name_of (length (task_results w) + 1) /\
    timestamp r1 = clock w (S (S (S (ticks w)))) /\
    timestamp r2 = clock w (S (S (S (S (S (ticks w)))))).
Proof.
  destruct o1 as [e1|], o2 as [e2|], swap; simpl;
    (split; [reflexivity|]); do 2 eexists;
    (split; [rewrite <- app_assoc; reflexivity|]);
    repeat split.
Qed.

(** X9.  Two runs that overlap get the same id.  From any world, when a
    second run starts before the first has ended, both read the same store
    length: whichever way each ends (completed or failed) and in whichever
    order, the store gains two entries under the one id "task_<len+1>", so
    its ids are no longer distinct.  The code takes no lock between reading
    the length (line 91) and appending (lines 113 and 128). *)
Theorem overlapping_runs_share_their_id
        (o1 o2 : option exn) (swap : bool) (w : World) :
  let w' := snd (two_overlapping o1 o2 swap w) in
  fst (two_overlapping o1 o2 swap w) = Ok tt /\
  exists r1 r2,
    task_results w' = task_results w ++ [r1; r2] /\
    task_id r1 = task_name_of (length (task_results w) + 1) /\
    task_id r2 = task_name_of (length (task_results w) + 1) /\
    ~ NoDup (map task_id (task_results w')).
Proof.
  destruct (two_overlapping_store o1 o2 swap w)
    as (R & r1 & r2 & S & I1 & I2 & _).
  split; [exact R|]. exists r1, r2. repeat split; trivial.
  cbv zeta. rewrite S, map_app. intros ND.
  apply NoDup_app_remove_l in ND. simpl in ND. rewrite I1, I2 in ND.
  inversion ND as [|? ? Hin _]. apply Hin. now left.
Qed.

(** ** Invariants of the states reached one operation after another *)

Lemma serve_invariant work (P : World -> Prop) :
  (forall o w, P w -> P (snd (exec work o w))) ->
  forall ops w, P w -> P (serve work ops w).
Proof.
  intros Step. induction ops as [|o ops IH]; intros w Hw; simpl; trivial.
  pose proof (Step o w Hw) as H.
  destruct (exec work o w) as [[b|e|c] w1]; simpl in H; auto.
Qed.

(** What a run leaves in the store when nothing else touches it: nothing
    (the Work Unit exited) or one record of one of the two shapes. *)
Lemma run_main_task_store_shape work w :
  leaves_store work ->
  exists added,
    task_results (snd (run_main_task work w)) = task_results w ++ added /\
    Forall well_formed added.
Proof.
  intros F. pose proof (F (begun w)) as S. revert S.
  by_outcome work w E; simpl; intros ->.
  - eexists [_]. split; [reflexivity|].
    constructor; [|constructor]. left. now split.
  - eexists [_]. split; [reflexivity|].
    constructor; [|constructor]. right.
    split; [reflexivity|]. now exists (str e).
  - exists []. now rewrite app_nil_r.
Qed.

Lemma exec_store_shape work o w :
  leaves_store work ->
  exists added,
    task_results (snd (exec work o w)) = task_results w ++ added /\
    Forall well_formed added.
Proof.
  intros F. destruct (is_run o) eqn:R.
  - destruct o as [| | |[| | | |i]]; try discriminate R;
      unfold exec, handle; rewrite snd_bind_ret.
    + rewrite auto_run_task_store.
      apply (run_main_task_store_shape work (warmed_up w) F).
    + now apply run_main_task_store_shape.
  - exists []. rewrite app_nil_r. split; [|constructor].
    now apply exec_of_non_run.
Qed.

(** X10.  Every entry of the store is of one of two shapes, in every state
    reached by operations carried out one after another from a fresh
    process with a Work Unit that leaves the store alone: status
    "completed" with the message "Task completed successfully", or status
    "failed" with a message that starts with "Task failed: ".  No other
    status is ever stored. *)
Theorem stored_results_are_completed_or_failed
        (work : M unit) (clk : nat -> datetime) (ops : list operation) :
  leaves_store work ->
  forall r, In r (task_results (serve work ops (boot clk))) ->
    well_formed r /\ (status r = "completed" \/ status r = "failed").
Proof.
  intros F.
  assert (P : Forall well_formed (task_results (serve work ops (boot clk)))).
  { apply (serve_invariant work (fun w => Forall well_formed (task_results w))).
    - intros o w Hw. destruct (exec_store_shape work o w F) as (a & -> & Ha).
      apply Forall_app. now split.
    - constructor. }
  intros r Hin. rewrite Forall_forall in P. specialize (P r Hin).
  split; [exact P|]. destruct P as [[S _]|[S _]]; auto.
Qed.

Lemma stored_results_are_completed_or_failed_witness :
  leaves_store (failing_at 1 "boom") /\
  forall r, In r (task_results (serve (failing_at 1 "boom") sample_operations
                                      (boot steady_clock))) ->
    well_formed r /\ (status r = "completed" \/ status r = "failed").
Proof.
  split; [apply failing_at_leaves_store|].
  exact (stored_results_are_completed_or_failed (failing_at 1 "boom")
           steady_clock sample_operations (failing_at_leaves_store 1 "boom")).
Defined.

(** ** With a clock that never goes back *)

Lemma chronological_snoc (l : list TaskResult) (r : TaskResult) :
  chronological l ->
  (forall x, In x l -> (timestamp x <= timestamp r)%Z) ->
  chronological (l ++ [r]).
Proof.
  unfold chronological. induction 1 as [|a l Hl IH Ha]; intros B; simpl.
  - repeat constructor.
  - constructor.
    + apply IH. intros x Hx. apply B. now right.
    + apply Forall_app. split; [exact Ha|].
      constructor; [|constructor]. apply B. now left.
Qed.

Lemma chronological_nth (l : list TaskResult) :
  chronological l ->
  forall i j ri rj,
    (i < j)%nat -> nth_error l i = Some ri -> nth_error l j = Some rj ->
    (timestamp ri <= timestamp rj)%Z.
Proof.
  unfold chronological. induction 1 as [|a l Hl IH Ha]; intros i j ri rj Hlt Hi Hj.
  - now destruct i.
  - destruct j as [|j]; [lia|]. simpl in Hj. destruct i as [|i].
    + simpl in Hi. injection Hi as <-. rewrite Forall_forall in Ha.
      apply Ha. now apply nth_error_In in Hj.
    + simpl in Hi. apply (IH i j); trivial. lia.
Qed.

Lemma timed_by_later clk w w' :
  timed_by clk w ->
  clock w' = clock w -> start_time w' = start_time w ->
  task_results w' = task_results w -> (ticks w <= ticks w')%nat ->
  timed_by clk w'.
Proof.
  intros (C & St & R & O) Hc Hs Hr Ht. unfold timed_by.
  rewrite Hc, Hs, Hr. repeat split; trivial.
  - now apply R.
  - destruct (R r H) as (_ & k & Hk & E). exists k. split; [lia|exact E].
Qed.

Lemma timed_by_emit clk evs w : timed_by clk w -> timed_by clk (emit evs w).
Proof. intros H. now apply (timed_by_later clk w). Qed.

Section MonotoneClock.

Variable clk : nat -> datetime.
Hypothesis clk_non_decreasing : non_decreasing clk.

Variable work : M unit.
Hypothesis work_leaves_store : leaves_store work.
Hypothesis work_leaves_start_time : leaves_start_time work.
Hypothesis work_keeps_clock : keeps_clock work.

(** The end of a run that began in [w] and whose Work Unit ended in [w1]. *)
Lemma timed_by_recorded w w1 st msg :
  timed_by clk w ->
  clock w1 = clock w -> start_time w1 = start_time w ->
  task_results w1 = task_results w -> (ticks w <= ticks w1)%nat ->
  timed_by clk (recorded (record_of (pending_of w) st msg w1) w1).
Proof.
  intros (C & St & R & O) Hc Hs Hr Ht. unfold timed_by, recorded.
  simpl. rewrite Hc, Hs, Hr, C. repeat split; trivial.
  - apply in_app_or in H. destruct H as [H|[<-|[]]]; [now apply R|].
    simpl. unfold total_seconds, Qle. simpl.
    rewrite Hc, C. pose proof (clk_non_decreasing _ _ Ht). lia.
  - apply in_app_or in H. destruct H as [H|[<-|[]]].
    + destruct (R r H) as (_ & k & Hk & E). exists k. split; [lia|exact E].
    + exists (S (ticks w1)). split; [lia|]. simpl. now rewrite Hc, C.
  - apply chronological_snoc; trivial.
    intros x Hx. destruct (R x Hx) as (_ & k & Hk & ->). simpl.
    rewrite Hc, C. apply clk_non_decreasing. lia.
Qed.

Lemma timed_by_run w :
  timed_by clk w -> timed_by clk (snd (run_main_task work w)).
Proof.
  intros H.
  pose proof (work_leaves_store (begun w)) as Hr.
  pose proof (work_leaves_start_time (begun w)) as Hs.
  destruct (work_keeps_clock (begun w)) as [Hc Ht].
  revert Hr Hs Hc Ht.
  by_outcome work w E; simpl; intros Hr Hs Hc Ht.
  - apply timed_by_emit, timed_by_recorded; trivial. lia.
  - apply timed_by_emit, timed_by_recorded; trivial. lia.
  - apply (timed_by_later clk w); trivial. lia.
Qed.

Lemma timed_by_exec o w :
  timed_by clk w -> timed_by clk (snd (exec work o w)).
Proof.
  intros H. destruct (is_run o) eqn:R.
  - destruct o as [| | |[| | | |i]]; try discriminate R;
      unfold exec, handle; rewrite snd_bind_ret.
    + generalize (auto_run_task_cases work w).
      pose proof (timed_by_run (warmed_up w) (timed_by_emit _ _ _ H)) as T.
      destruct (run_main_task work (warmed_up w)) as [[r|e|c] w1];
        intros ->; simpl in *; trivial; now apply timed_by_emit.
    + now apply timed_by_run.
  - destruct (exec_of_non_run work o w R) as (Hr & Hs & _ & Hc & Ht & _).
    now apply (timed_by_later clk w).
Qed.

Lemma timed_by_boot : timed_by clk (boot clk).
Proof.
  unfold timed_by, chronological. simpl. repeat split; try contradiction.
  constructor.
Qed.

Lemma timed_by_serve ops : timed_by clk (serve work ops (boot clk)).
Proof.
  apply (serve_invariant work (timed_by clk)); [|apply timed_by_boot].
  intros o w. apply timed_by_exec.
Qed.

End MonotoneClock.

Lemma simulate_work_keeps_clock : keeps_clock simulate_work.
Proof. intros w. rewrite simulate_work_eq. simpl. split; [reflexivity|lia]. Qed.

Lemma simulate_work_leaves_store : leaves_store simulate_work.
Proof. intros w. now rewrite simulate_work_eq. Qed.

Lemma steady_clock_non_decreasing : non_decreasing steady_clock.
Proof. intros a b H. unfold steady_clock. lia. Qed.

(** X11.  With a wall clock that never goes back, the history is in
    chronological order and no recorded duration is negative: in every
    state reached by operations carried out one after another from a fresh
    process (with a Work Unit that leaves the globals and the clock alone),
    the timestamps of the store are non-decreasing in append order, every
    duration is at least 0, and every timestamp is a reading taken after
    [start_time]. *)
Theorem history_is_chronological
        (work : M unit) (clk : nat -> datetime) (ops : list operation) :
  non_decreasing clk ->
  leaves_store work -> leaves_start_time work -> keeps_clock work ->
  let w := serve work ops (boot clk) in
  chronological (task_results w) /\
  (forall r, In r (task_results w) ->
     (0 <= duration_seconds r)%Q /\ (start_time w <= timestamp r)%Z) /\
  (forall i j ri rj,
     (i <= j)%nat -> nth_error (task_results w) i = Some ri ->
     nth_error (task_results w) j = Some rj ->
     (timestamp ri <= timestamp rj)%Z).
Proof.
  intros Hm F S K w.
  destruct (timed_by_serve clk Hm work F S K ops) as (C & St & R & O).
  fold w in C, St, R, O. split; [exact O|]. split.
  - intros r H. destruct (R r H) as (D & k & _ & ->).
    split; [exact D|]. rewrite St. apply Hm. lia.
  - intros i j ri rj Hij Hi Hj.
    destruct (Nat.eq_dec i j) as [->|N].
    + rewrite Hi in Hj. injection Hj as ->. lia.
    + apply (chronological_nth _ O i j); trivial. lia.
Qed.

Lemma history_is_chronological_witness :
  non_decreasing steady_clock /\
  leaves_store simulate_work /\ leaves_start_time simulate_work /\
  keeps_clock simulate_work /\
  chronological (task_results (serve simulate_work sample_operations
                                    (boot steady_clock))).
Proof.
  split; [apply steady_clock_non_decreasing|].
  split; [apply simulate_work_leaves_store|].
  split; [apply simulate_work_start_time|].
  split; [apply simulate_work_keeps_clock|].
  exact (proj1 (history_is_chronological simulate_work steady_clock
                  sample_operations steady_clock_non_decreasing
                  simulate_work_leaves_store simulate_work_start_time
                  simulate_work_keeps_clock)).
Defined.

(** X12.  With a wall clock that never goes back, the uptime is never
    negative: in every state reached as above, GET /health and GET / both
    return normally with an uptime of at least 0, both measure it from the
    same [start_time] and report the same value for the same reading, and
    GET / reports that [start_time], the first reading of the clock. *)
Theorem uptime_is_never_negative
        (work : M unit) (clk : nat -> datetime) (ops : list operation) :
  non_decreasing clk ->
  leaves_store work -> leaves_start_time work -> keeps_clock work ->
  let w := serve work ops (boot clk) in
  exists h b,
    fst (health_check w) = Ok h /\ fst (root w) = Ok b /\
    HealthResponse.status h = "healthy" /\
    RootResponse.status b = "running" /\
    RootResponse.start_time b = clk 0%nat /\
    HealthResponse.uptime_seconds h = RootResponse.uptime_seconds b /\
    (0 <= HealthResponse.uptime_seconds h)%Q.
Proof.
  intros Hm F S K w.
  destruct (timed_by_serve clk Hm work F S K ops) as (C & St & R & O).
  fold w in C, St. do 2 eexists. repeat split.
  - simpl. exact St.
  - simpl. rewrite C, St. unfold total_seconds, Qle. simpl.
    pose proof (Hm 0%nat (ticks w) (Nat.le_0_l _)). lia.
Qed.

Lemma uptime_is_never_negative_witness :
  non_decreasing steady_clock /\
  leaves_store simulate_work /\ leaves_start_time simulate_work /\
  keeps_clock simulate_work /\
  exists h b,
    fst (health_check (serve simulate_work sample_operations
                             (boot steady_clock))) = Ok h /\
    fst (root (serve simulate_work sample_operations (boot steady_clock))) =
      Ok b /\
    HealthResponse.status h = "healthy" /\
    RootResponse.status b = "running" /\
    RootResponse.start_time b = steady_clock 0%nat /\
    HealthResponse.uptime_seconds h = RootResponse.uptime_seconds b /\
    (0 <= HealthResponse.uptime_seconds h)%Q.
Proof.
  split; [apply steady_clock_non_decreasing|].
  split; [apply simulate_work_leaves_store|].
  split; [apply simulate_work_start_time|].
  split; [apply simulate_work_keeps_clock|].
  exact (uptime_is_never_negative simulate_work steady_clock
           sample_operations steady_clock_non_decreasing
           simulate_work_leaves_store simulate_work_start_time
           simulate_work_keeps_clock).
Defined.

(** ** Signals *)

Lemma run_main_task_sends_no_signal work w :
  sends_no_signal work ->
  exists evs,
    trace (snd (run_main_task work w)) = trace w ++ evs /\ signals evs = [].
Proof.
  intros H. destruct (H (begun w)) as (evs & T & N). revert T.
  by_outcome work w E; simpl; intros ->.
  - eexists. rewrite <- !app_assoc. split; [reflexivity|].
    rewrite !signals_app, N. reflexivity.
  - eexists. rewrite <- !app_assoc. split; [reflexivity|].
    rewrite !signals_app, N. reflexivity.
  - eexists. rewrite <- !app_assoc. split; [reflexivity|].
    rewrite !signals_app, N. reflexivity.
Qed.

Lemma simulate_work_sends_no_signal : sends_no_signal simulate_work.
Proof.
  intros w. rewrite simulate_work_eq. eexists. split; [reflexivity|].
  reflexivity.
Qed.

(** X13.  The only signal the program ever sends is the SIGTERM that ends a
    successful auto-run.  With a Work Unit that sends none, every operation
    only adds events to the trace; the events added hold exactly one signal,
    SIGTERM, when the operation is the auto-run and it returned, and no
    signal otherwise: no HTTP request, no hook and no failed auto-run
    signals the process. *)
Theorem only_the_auto_run_signals
        (work : M unit) (o : operation) (w : World) :
  sends_no_signal work ->
  exists evs,
    trace (snd (exec work o w)) = trace w ++ evs /\
    signals evs =
      match o, fst (exec work o w) with
      | on_startup_auto_run, Ok _ => [SIGTERM]
      | _, _ => []
      end.
Proof.
  intros H. destruct (is_run o) eqn:R.
  - destruct o as [| | |[| | | |i]]; try discriminate R.
    + unfold exec, bind. generalize (auto_run_task_cases work w).
      destruct (run_main_task_sends_no_signal work (warmed_up w) H)
        as (evs & T & N). revert T.
      destruct (run_main_task work (warmed_up w)) as [[r|e|c] w1];
        simpl; intros T ->; simpl; rewrite T; eexists;
        rewrite <- !app_assoc; (split; [reflexivity|]);
        rewrite !signals_app, N; reflexivity.
    + unfold exec, handle. rewrite snd_bind_ret.
      destruct (run_main_task_sends_no_signal work w H) as (evs & T & N).
      exists evs. split; [exact T|exact N].
  - destruct (exec_of_non_run work o w R) as (_ & _ & _ & _ & _ & evs & T & N).
    exists evs. split; [exact T|]. rewrite N.
    destruct o; try reflexivity. discriminate R.
Qed.

Lemma only_the_auto_run_signals_witness :
  sends_no_signal simulate_work /\
  exists evs,
    trace (snd (exec simulate_work on_startup_auto_run (boot steady_clock))) =
      trace (boot steady_clock) ++ evs /\
    signals evs =
      match fst (exec simulate_work on_startup_auto_run (boot steady_clock))
      with
      | Ok _ => [SIGTERM]
      | _ => []
      end.
Proof.
  split; [apply simulate_work_sends_no_signal|].
  exact (only_the_auto_run_signals simulate_work on_startup_auto_run
           (boot steady_clock) simulate_work_sends_no_signal).
Defined.

(** ** When a result becomes visible *)

Lemma scan_app l l' i :
  scan (l ++ l') i =
  match scan l i with Some r => Some r | None => scan l' i end.
Proof.
  induction l as [|a l IH]; simpl; [reflexivity|].
  now destruct (String.eqb (task_id a) i).
Qed.

(** X14.  A result can be looked up as soon as, and not before, its run has
    recorded it.  In every state reached by operations carried out one
    after another from a fresh process (with a Work Unit that completes or
    fails and leaves the store alone): while the next run is in flight the
    lookup of its id raises 404, and right after the run, completed or
    failed, the lookup of that id returns the record the run appended. *)
Theorem result_visible_once_recorded
        (work : M unit) (clk : nat -> datetime) (ops : list operation) :
  leaves_store work -> completes_or_fails work ->
  let w := serve work ops (boot clk) in
  let id := task_name_of (length (task_results w) + 1) in
  let after := snd (run_main_task work w) in
  pending_id (pending_of w) = id /\
  get_task_result id (begun w) =
    (Raise (HTTPException 404 "Task not found"), begun w) /\
  get_task_result id (snd (work (begun w))) =
    (Raise (HTTPException 404 "Task not found"), snd (work (begun w))) /\
  exists r,
    task_results after = task_results w ++ [r] /\
    task_id r = id /\
    get_task_result id after = (Ok r, after).
Proof.
  intros F T w id after.
  destruct (serve_adds work F T ops (boot clk)) as (added & S & I).
  simpl in S, I. fold w in S.
  set (n := runs (executed work ops (boot clk))) in *.
  assert (E : map task_id (task_results w) = map task_name_of (seq 1 n))
    by now rewrite S.
  assert (L : length (task_results w) = n)
    by (rewrite <- (length_map task_id), E, length_map; apply length_seq).
  assert (Fresh : scan (task_results w) id = None).
  { apply scan_None. intros r Hin Hid.
    apply (in_map task_id) in Hin. rewrite E, Hid in Hin.
    apply in_map_iff in Hin. destruct Hin as (m & Hm & Hin).
    apply task_name_of_inj in Hm. apply in_seq in Hin. subst id. lia. }
  split; [reflexivity|]. split; [now apply get_task_result_not_found|].
  split; [apply get_task_result_not_found; now rewrite F|].
  destruct (run_main_task_adds work F T w) as (r & Sr & Ir).
  exists r. split; [exact Sr|]. split; [exact Ir|].
  apply get_task_result_found. fold after in Sr. rewrite Sr, scan_app, Fresh.
  simpl. fold id in Ir. rewrite Ir. now rewrite String.eqb_refl.
Qed.

Lemma result_visible_once_recorded_witness :
  leaves_store (failing_at 1 "boom") /\
  completes_or_fails (failing_at 1 "boom") /\
  let w := serve (failing_at 1 "boom") [http POST_run_task]
                 (boot steady_clock) in
  get_task_result "task_2" (begun w) =
    (Raise (HTTPException 404 "Task not found"), begun w) /\
  exists r,
    task_results (snd (run_main_task (failing_at 1 "boom") w)) =
      task_results w ++ [r] /\
    get_task_result "task_2" (snd (run_main_task (failing_at 1 "boom") w)) =
      (Ok r, snd (run_main_task (failing_at 1 "boom") w)).
Proof.
  split; [apply failing_at_leaves_store|].
  split; [apply failing_at_completes_or_fails|].
  intros w.
  destruct (result_visible_once_recorded (failing_at 1 "boom") steady_clock
              [http POST_run_task] (failing_at_leaves_store 1 "boom")
              (failing_at_completes_or_fails 1 "boom"))
    as (_ & B & _ & r & S & _ & G).
  fold w in B, S, G.
  assert (Id : task_name_of (length (task_results w) + 1) = "task_2")
    by (vm_compute; reflexivity).
  rewrite Id in B, G.
  split; [exact B|]. exists r. split; [exact S|exact G].
Defined.

(** X15.  Of two results recorded by overlapping runs, the later one cannot
    be fetched by id.  From any world in which no entry carries the next
    id, after two overlapping runs (each completed or failed, ending in
    either order) the lookup of the id they share returns the one appended
    first, whose timestamp is the fourth clock reading from the start; the
    one appended second, with the sixth reading as timestamp, is in the
    history but is never returned by a lookup. *)
Theorem overlap_shadows_the_later_result
        (o1 o2 : option exn) (swap : bool) (w : World) :
  (forall r, In r (task_results w) ->
             task_id r <> task_name_of (length (task_results w) + 1)) ->
  let w' := snd (two_overlapping o1 o2 swap w) in
  exists r1 r2,
    task_results w' = task_results w ++ [r1; r2] /\
    timestamp r1 = clock w (ticks w + 3)%nat /\
    timestamp r2 = clock w (ticks w + 5)%nat /\
    get_task_result (task_id r1) w' = (Ok r1, w') /\
    get_task_result (task_id r2) w' = (Ok r1, w') /\
    fst (get_task_history w') = Ok (task_results w ++ [r1; r2]).
Proof.
  intros Fresh. apply scan_None in Fresh.
  destruct (two_overlapping_store o1 o2 swap w)
    as (_ & r1 & r2 & S & I1 & I2 & T1 & T2).
  exists r1, r2. cbv zeta.
  assert (G : get_task_result (task_name_of (length (task_results w) + 1))
                (snd (two_overlapping o1 o2 swap w)) =
              (Ok r1, snd (two_overlapping o1 o2 swap w))).
  { apply get_task_result_found. rewrite S, scan_app, Fresh.
    simpl. now rewrite I1, String.eqb_refl. }
  split; [exact S|].
  split; [rewrite T1; f_equal; lia|].
  split; [rewrite T2; f_equal; lia|].
  rewrite I1, I2. split; [exact G|]. split; [exact G|].
  unfold get_task_history, get_task_results. simpl. now rewrite S.
Qed.

Lemma overlap_shadows_the_later_result_witness :
  (forall r, In r (task_results (boot steady_clock)) ->
             task_id r <> task_name_of
                            (length (task_results (boot steady_clock)) + 1)) /\
  exists r1 r2,
    task_results (snd (two_overlapping None None false (boot steady_clock))) =
      [r1; r2] /\
    timestamp r1 = 4000000%Z /\ timestamp r2 = 6000000%Z /\
    get_task_result "task_1"
      (snd (two_overlapping None None false (boot steady_clock))) =
      (Ok r1, snd (two_overlapping None None false (boot steady_clock))).
Proof.
  assert (Fresh : forall r, In r (task_results (boot steady_clock)) ->
            task_id r <> task_name_of
                           (length (task_results (boot steady_clock)) + 1))
    by (intros r []).
  split; [exact Fresh|].
  destruct (overlap_shadows_the_later_result None None false
              (boot steady_clock) Fresh)
    as (r1 & r2 & S & T1 & T2 & G & _).
  exists r1, r2. split; [exact S|]. split; [exact T1|]. split; [exact T2|].
  assert (Id : task_id r1 = "task_1").
  { simpl in S. injection S as <- _. reflexivity. }
  now rewrite Id in G.
Defined.
